(** * CodeEditorWrapper: the widget that hosts a code editor

    A shallow embedding of [packages/codeeditor/src/widget.ts].

    The file has three layers:
    - [Js]: the pieces of the JavaScript runtime the widget relies on
      (strings as sequences of UTF-16 code units, [String.prototype.slice],
      and the regular expression [/^\s+$/] run by a small backtracking
      matcher);
    - [Wrapper]: the class [CodeEditorWrapper] itself, written in a state and
      exception monad over the mutable part of the host, the state of the
      hosted editor and a log of the calls that leave the class;
    - the properties of the handlers. *)

From stdpp Require Import base gmap sets list strings.
From Stdlib Require Import ZArith NArith Ascii Lia.

Set Default Proof Using "Type".

(* ===================================================================== *)
(** ** JavaScript strings, [slice] and [match]                            *)
(* ===================================================================== *)

Module Js.

(** A JavaScript string is a finite sequence of UTF-16 code units. *)
Definition jsstring := list N.

(** The code units of an ASCII literal. *)
Fixpoint lit (s : string) : jsstring :=
  match s with
  | EmptyString => []
  | String a s' => Ascii.N_of_ascii a :: lit s'
  end.

(** The character class [\s]: the ECMAScript [WhiteSpace] and
    [LineTerminator] code points. *)
Definition isWhiteSpace (c : N) : bool :=
  ((c =? 0x09) || (c =? 0x0A) || (c =? 0x0B) || (c =? 0x0C) || (c =? 0x0D)
   || (c =? 0x20) || (c =? 0xA0) || (c =? 0x1680)
   || ((0x2000 <=? c) && (c <=? 0x200A))
   || (c =? 0x2028) || (c =? 0x2029) || (c =? 0x202F) || (c =? 0x205F)
   || (c =? 0x3000) || (c =? 0xFEFF))%N.

(** The clamping that [slice] applies to each of its two arguments, here
    integers: a negative index counts from the end. *)
Definition clampIndex (len k : Z) : Z :=
  if (k <? 0)%Z then Z.max (len + k) 0 else Z.min k len.

(** [s.slice(start, end)]. *)
Definition slice (s : jsstring) (start end_ : Z) : jsstring :=
  let len := Z.of_nat (List.length s) in
  let from := clampIndex len start in
  let to := clampIndex len end_ in
  let span := Z.max (to - from) 0 in
  take (Z.to_nat span) (drop (Z.to_nat from) s).

(** The fragment of the pattern language that the widget uses: the two
    assertions [^] and [$] (no [m] flag, so they only hold at the two ends
    of the input) and a greedy [+] over a character class. *)
Inductive Term :=
| AssertStart
| AssertEnd
| PlusClass (cls : N -> bool).

Definition Pattern := list Term.

(** Greedy [cls+] at input offset [i] with [rest] still to read: consume as
    many characters as possible first, and give characters back one at a
    time while the continuation [k] fails. *)
Fixpoint plus (cls : N -> bool) (k : nat -> jsstring -> option nat)
    (i : nat) (rest : jsstring) : option nat :=
  match rest with
  | [] => None
  | c :: rest' =>
      if cls c then
        match plus cls k (S i) rest' with
        | Some e => Some e
        | None => k (S i) rest'
        end
      else None
  end.

(** Match pattern [p] at offset [i]; the result is the end offset. *)
Fixpoint matchAt (p : Pattern) (i : nat) (rest : jsstring) : option nat :=
  match p with
  | [] => Some i
  | AssertStart :: p' => if Nat.eqb i 0 then matchAt p' i rest else None
  | AssertEnd :: p' =>
      match rest with
      | [] => matchAt p' i rest
      | _ :: _ => None
      end
  | PlusClass cls :: p' => plus cls (matchAt p') i rest
  end.

(** [RegExp.prototype.exec] without the [g] and [y] flags: try every start
    offset from left to right.  The result is the matched span, [None]
    standing for [null]. *)
Fixpoint execFrom (p : Pattern) (i : nat) (rest : jsstring)
    : option (nat * nat) :=
  match matchAt p i rest with
  | Some e => Some (i, e)
  | None =>
      match rest with
      | [] => None
      | _ :: rest' => execFrom p (S i) rest'
      end
  end.

(** [s.match(re)] for a pattern without the [g] flag. *)
Definition match_ (s : jsstring) (p : Pattern) : option (nat * nat) :=
  execFrom p 0 s.

(** [ToBoolean] of the result of [match]: an array is truthy, [null] is
    falsy. *)
Definition truthy {A} (r : option A) : bool :=
  match r with Some _ => true | None => false end.

End Js.

(** [const leadingWhitespaceRe = /^\s+$/] *)
Definition leadingWhitespaceRe : Js.Pattern :=
  [Js.AssertStart; Js.PlusClass Js.isWhiteSpace; Js.AssertEnd].

(** [const HAS_SELECTION_CLASS = 'jp-mod-has-primary-selection'] *)
Definition HAS_SELECTION_CLASS : string := "jp-mod-has-primary-selection".

(** [const HAS_IN_LEADING_WHITESPACE_CLASS = 'jp-mod-in-leading-whitespace'] *)
Definition HAS_IN_LEADING_WHITESPACE_CLASS : string :=
  "jp-mod-in-leading-whitespace".

(* ===================================================================== *)
(** ** Values shared by the interfaces                                    *)
(* ===================================================================== *)

(** The types the widget is generic in: it stores or forwards values of
    these types and never looks inside them. *)
Class Types := {
  (** the private state of the hosted editor implementation *)
  EdState : Type;
  (** [CodeEditor.IModel] *)
  IModel : Type;
  (** [Partial<CodeEditor.IConfig>] *)
  IConfig : Type;
  (** [CodeEditor.ISelectionStyle] *)
  ISelectionStyle : Type
}.

(** A thrown value: the [TypeError] the runtime raises on a property access
    on [undefined], or a value thrown by the factory or by the editor. *)
Inductive Exn :=
| TypeError
| Thrown (tag : nat).

(** How a call completes. *)
Inductive Completion (A : Type) : Type :=
| Normal (a : A)
| Abrupt (e : Exn).
Arguments Normal {A} a.
Arguments Abrupt {A} e.

(** The identity of a DOM element. *)
Definition NodeRef := nat.

(* ===================================================================== *)
(** ** The [CodeEditor] namespace, as far as the widget uses it           *)
(* ===================================================================== *)

Module CodeEditor.

(** [IPosition]: [line] and [column] are JavaScript numbers holding
    integers. *)
Record IPosition := { line : Z; column : Z }.

(** [IRange]; [end] is spelled [end_]. *)
Record IRange := { start : IPosition; end_ : IPosition }.

(** [CodeEditor.IOptions], the argument of the factory.  An optional
    property that is left out is [None]. *)
Module IOptions.
Record t `{Types} := {
  host : NodeRef;
  model : IModel;
  uuid : option string;
  config : option IConfig;
  selectionStyle : option ISelectionStyle
}.
End IOptions.

(** [CodeEditor.IEditor]: the methods of an editor object, each acting on
    the editor's private state.  A command may throw and may change the
    state before it does; [getLine] answers [None] for [undefined].  The two
    getters are taken as returning: an editor whose [getSelection] or
    [getLine] itself throws is not represented, and what is proved of the
    selection handler is proved of the values the getters return. *)
Module IEditor.
Record t `{Types} := {
  model : IModel;
  focus : EdState -> Completion unit * EdState;
  refresh : EdState -> Completion unit * EdState;
  setSize : Z -> Z -> EdState -> Completion unit * EdState;
  resizeToFit : EdState -> Completion unit * EdState;
  getSelection : EdState -> IRange;
  getLine : EdState -> Z -> option Js.jsstring;
  dispose : EdState -> Completion unit * EdState
}.
End IEditor.

(** [CodeEditor.Factory]: builds an editor object, that is its methods and
    its initial state, or throws. *)
Definition Factory `{Types} : Type :=
  IOptions.t -> Completion (IEditor.t * EdState).

End CodeEditor.

(* ===================================================================== *)
(** ** The world the widget runs in                                       *)
(* ===================================================================== *)

(** A call that leaves the class: to the factory, to the signal of the
    editor's model, to the hosted editor, or to the base class. *)
Inductive Call `{Types} :=
| CallFactory (o : CodeEditor.IOptions.t)
| CallConnect (m : IModel) (thisArg : NodeRef)
| CallFocus
| CallRefresh
| CallSetSize (width height : Z)
| CallResizeToFit
| CallGetSelection
| CallGetLine (n : Z)
| CallEditorDispose
| SuperDispose
| SuperOnAfterAttach
| Update.

Definition isEditorDispose `{Types} (c : Call) : bool :=
  match c with CallEditorDispose => true | _ => false end.

Definition isGetLine `{Types} (c : Call) : bool :=
  match c with CallGetLine _ => true | _ => false end.

Definition isConnect `{Types} (c : Call) : bool :=
  match c with CallConnect _ _ => true | _ => false end.

Definition isFactory `{Types} (c : Call) : bool :=
  match c with CallFactory _ => true | _ => false end.

(** Everything that changes while the widget lives: the class list of its
    node, the two flags of the base class that the widget reads, the state
    of the hosted editor, and the calls made so far, oldest first. *)
Record World `{Types} := {
  classList : gset string;
  isDisposed : bool;
  isVisible : bool;
  editorState : EdState;
  log : list Call
}.

Section Monad.
Context `{Types}.

(** A computation reads and writes the world and completes normally or
    abruptly. *)
Definition M (A : Type) : Type := World -> Completion A * World.

#[export] Instance M_ret : MRet M := fun A a w => (Normal a, w).

#[export] Instance M_bind : MBind M := fun A B k m w =>
  match m w with
  | (Normal a, w') => k a w'
  | (Abrupt e, w') => (Abrupt e, w')
  end.

Definition throw {A} (e : Exn) : M A := fun w => (Abrupt e, w).

Definition record (c : Call) : M unit := fun w =>
  (Normal tt,
   {| classList := classList w; isDisposed := isDisposed w;
      isVisible := isVisible w; editorState := editorState w;
      log := log w ++ [c] |}).

(** Run a command of the editor on the editor's state. *)
Definition command (m : EdState -> Completion unit * EdState) : M unit :=
  fun w =>
    let (r, s) := m (editorState w) in
    (r,
     {| classList := classList w; isDisposed := isDisposed w;
        isVisible := isVisible w; editorState := s; log := log w |}).

(** Ask the editor a question. *)
Definition query {A} (q : EdState -> A) : M A := fun w =>
  (Normal (q (editorState w)), w).

(** The world the widget has changed and the way the call completed. *)
Definition after {A} (m : M A) (w : World) : World := snd (m w).
Definition completion {A} (m : M A) (w : World) : Completion A := fst (m w).

(** The calls a computation adds to the log. *)
Definition calls {A} (m : M A) (w : World) : list Call :=
  drop (length (log w)) (log (after m w)).

End Monad.

(* ===================================================================== *)
(** ** The base class                                                     *)
(* ===================================================================== *)

(** The base class [Widget] comes from [@phosphor/widgets] and is not part
    of the sources; what the widget uses of it is taken from the
    specification. *)
Module Widget.
Section Widget.
Context `{Types}.

(** Modelled from the spec: "a mutable set of style-flag strings attached to
    its visual node"; [addClass] puts a marker on the node. *)
Definition addClass (name : string) : M unit := fun w =>
  (Normal tt,
   {| classList := {[name]} ∪ classList w; isDisposed := isDisposed w;
      isVisible := isVisible w; editorState := editorState w;
      log := log w |}).

(** Modelled from the spec: [removeClass] takes a marker off the node. *)
Definition removeClass (name : string) : M unit := fun w =>
  (Normal tt,
   {| classList := classList w ∖ {[name]}; isDisposed := isDisposed w;
      isVisible := isVisible w; editorState := editorState w;
      log := log w |}).

(** Modelled from the spec: the host "holds a disposed flag, monotonic
    false→true"; [this.isDisposed] reads it. *)
Definition get_isDisposed : M bool := fun w => (Normal (isDisposed w), w).

(** Modelled from the spec: the handlers are "conditioned on host
    visibility"; [this.isVisible] reads it. *)
Definition get_isVisible : M bool := fun w => (Normal (isVisible w), w).

Definition setDisposed (b : bool) (w : World) : World :=
  {| classList := classList w; isDisposed := b;
     isVisible := isVisible w; editorState := editorState w;
     log := log w |}.

(** Modelled from the spec: [super()] creates the node of the host; a new
    host carries no marker, is not disposed and is not yet visible. *)
Definition created (s : EdState) (made : list Call) : World :=
  {| classList := ∅; isDisposed := false; isVisible := false;
     editorState := s; log := made |}.

(** Modelled from the spec: base disposal "marks disposed, releases base
    container resources". *)
Definition dispose : M unit :=
  (fun w => (Normal tt, setDisposed true w)) ;; record SuperDispose.

(** Modelled from the spec: "the base attach behavior"; it touches neither
    the class list nor the editor. *)
Definition onAfterAttach : M unit := record SuperOnAfterAttach.

(** Modelled from the spec: [update()] "requests a visual update"; the
    request is posted, not handled on the spot. *)
Definition update : M unit := record Update.

End Widget.
End Widget.

(* ===================================================================== *)
(** ** [class CodeEditorWrapper extends Widget]                           *)
(* ===================================================================== *)

Module CodeEditorWrapper.

(** [CodeEditorWrapper.IOptions] *)
Module IOptions.
Record t `{Types} := {
  factory : CodeEditor.Factory;
  model : IModel;
  uuid : option string;
  config : option IConfig;
  selectionStyle : option ISelectionStyle
}.
End IOptions.

(** The fields of the object that never change: the node that the base
    constructor creates, and [readonly editor]. *)
Record t `{Types} := {
  node : NodeRef;
  editor : CodeEditor.IEditor.t
}.

(** What [new CodeEditorWrapper(options)] leaves behind: the object and
    the world it starts in, or the value the factory threw together with
    the calls made up to that point. *)
Inductive Constructed `{Types} :=
| New (this : t) (w : World)
| Failed (e : Exn) (made : list Call).

Section Class.
Context `{Types}.

(** [constructor(options)], on the node [n] that [super()] has created;
    [factoryArgument] is the object literal handed to the factory. *)
Definition factoryArgument (n : NodeRef) (options : IOptions.t)
    : CodeEditor.IOptions.t :=
  {| CodeEditor.IOptions.host := n;
     CodeEditor.IOptions.model := IOptions.model options;
     CodeEditor.IOptions.uuid := IOptions.uuid options;
     CodeEditor.IOptions.config := IOptions.config options;
     CodeEditor.IOptions.selectionStyle := IOptions.selectionStyle options |}.

Definition constructor (n : NodeRef) (options : IOptions.t) : Constructed :=
  let o := factoryArgument n options in
  match IOptions.factory options o with
  | Abrupt e => Failed e [CallFactory o]
  | Normal (ed, s) =>
      New {| node := n; editor := ed |}
          (Widget.created s
             [CallFactory o; CallConnect (CodeEditor.IEditor.model ed) n])
  end.

(** [get model()] *)
Definition model (this : t) : IModel :=
  CodeEditor.IEditor.model (editor this).

(** [dispose()] *)
Definition dispose (this : t) : M unit :=
  d ← Widget.get_isDisposed;
  if (d : bool) then mret tt
  else
    Widget.dispose ;;
    record CallEditorDispose ;;
    command (CodeEditor.IEditor.dispose (editor this)).

(** [onActivateRequest(msg)] *)
Definition onActivateRequest (this : t) : M unit :=
  record CallFocus ;;
  command (CodeEditor.IEditor.focus (editor this)).

(** [onAfterAttach(msg)] *)
Definition onAfterAttach (this : t) : M unit :=
  Widget.onAfterAttach ;;
  v ← Widget.get_isVisible;
  if (v : bool) then Widget.update else mret tt.

(** [onAfterShow(msg)] *)
Definition onAfterShow (this : t) : M unit :=
  Widget.update.

(** [onResize(msg)], with [msg.width] and [msg.height] integers. *)
Definition onResize (this : t) (width height : Z) : M unit :=
  if ((0 <=? width)%Z && (0 <=? height)%Z)%bool then
    record (CallSetSize width height) ;;
    command (CodeEditor.IEditor.setSize (editor this) width height)
  else
    v ← Widget.get_isVisible;
    if (v : bool) then
      record CallResizeToFit ;;
      command (CodeEditor.IEditor.resizeToFit (editor this))
    else mret tt.

(** [onUpdateRequest(msg)] *)
Definition onUpdateRequest (this : t) : M unit :=
  record CallRefresh ;;
  command (CodeEditor.IEditor.refresh (editor this)).

(** [x.slice(...)] where [x] may be [undefined]: the property access
    throws a [TypeError]. *)
Definition receiver (x : option Js.jsstring) : M Js.jsstring :=
  match x with
  | Some s => mret s
  | None => throw TypeError
  end.

(** [_onSelectionsChanged()] *)
Definition _onSelectionsChanged (this : t) : M unit :=
  record CallGetSelection ;;
  sel ← query (CodeEditor.IEditor.getSelection (editor this));
  let start := CodeEditor.start sel in
  let end_ := CodeEditor.end_ sel in
  if (negb (CodeEditor.column start =? CodeEditor.column end_)%Z
      || negb (CodeEditor.line start =? CodeEditor.line end_)%Z)%bool
  then
    Widget.addClass HAS_SELECTION_CLASS ;;
    Widget.removeClass HAS_IN_LEADING_WHITESPACE_CLASS
  else
    Widget.removeClass HAS_SELECTION_CLASS ;;
    record (CallGetLine (CodeEditor.line end_)) ;;
    l ← query (fun s =>
           CodeEditor.IEditor.getLine (editor this) s (CodeEditor.line end_));
    text ← receiver l;
    if Js.truthy
         (Js.match_ (Js.slice text 0 (CodeEditor.column end_))
                    leadingWhitespaceRe)
    then Widget.addClass HAS_IN_LEADING_WHITESPACE_CLASS
    else Widget.removeClass HAS_IN_LEADING_WHITESPACE_CLASS.

(** What reaches the widget from outside: the five messages of the
    container, the signal of the model's selections, and a call of
    [dispose]. *)
Inductive Notification :=
| ActivateRequest
| AfterAttach
| AfterShow
| Resize (width height : Z)
| UpdateRequest
| SelectionsChanged
| Dispose.

Definition deliver (this : t) (n : Notification) : M unit :=
  match n with
  | ActivateRequest => onActivateRequest this
  | AfterAttach => onAfterAttach this
  | AfterShow => onAfterShow this
  | Resize width height => onResize this width height
  | UpdateRequest => onUpdateRequest this
  | SelectionsChanged => _onSelectionsChanged this
  | Dispose => dispose this
  end.

(** One step in the life of a widget: a notification is handled, or the
    surroundings move on (the container shows or hides the widget, the
    editor's own state changes) without touching the class list, the
    disposed flag or the log. *)
Definition surroundings (visible : bool) (s : EdState) (w : World) : World :=
  {| classList := classList w; isDisposed := isDisposed w;
     isVisible := visible; editorState := s; log := log w |}.

Inductive step (this : t) : World -> World -> Prop :=
| step_deliver n w :
    step this w (after (deliver this n) w)
| step_surroundings w visible s :
    step this w (surroundings visible s w).

(** The worlds a widget built from [options] on node [n] can be in. *)
Inductive reachable (n : NodeRef) (options : IOptions.t)
    : t -> World -> Prop :=
| reach_new this w :
    constructor n options = New this w -> reachable n options this w
| reach_step this w w' :
    reachable n options this w -> step this w w' ->
    reachable n options this w'.

(** The calls made during construction. *)
Definition madeBy (c : Constructed) : list Call :=
  match c with
  | New _ w => log w
  | Failed _ made => made
  end.

(** At most one of the two markers is on the node. *)
Definition flagsExclusive (w : World) : Prop :=
  ¬ (HAS_SELECTION_CLASS ∈ classList w
     ∧ HAS_IN_LEADING_WHITESPACE_CLASS ∈ classList w).

End Class.
End CodeEditorWrapper.

(* ===================================================================== *)
(** ** The words of the specification                                     *)
(* ===================================================================== *)

(** Spec wording: the prefix "is non-empty and consists entirely of
    whitespace characters". *)
Definition nonEmptyWhitespace (prefix : Js.jsstring) : Prop :=
  prefix ≠ [] ∧ Forall (fun c => Js.isWhiteSpace c = true) prefix.

(** Spec wording: the prefix "contains any non-whitespace character". *)
Definition hasNonWhitespace (prefix : Js.jsstring) : Prop :=
  Exists (fun c => Js.isWhiteSpace c = false) prefix.

(** Spec wording: a range selection, "start and end differ in line or in
    column", and a caret, "start equals end in both". *)
Definition isRange (sel : CodeEditor.IRange) : Prop :=
  CodeEditor.column (CodeEditor.start sel) ≠ CodeEditor.column (CodeEditor.end_ sel)
  ∨ CodeEditor.line (CodeEditor.start sel) ≠ CodeEditor.line (CodeEditor.end_ sel).

Definition isCaret (sel : CodeEditor.IRange) : Prop :=
  CodeEditor.column (CodeEditor.start sel) = CodeEditor.column (CodeEditor.end_ sel)
  ∧ CodeEditor.line (CodeEditor.start sel) = CodeEditor.line (CodeEditor.end_ sel).

(** The selection the handler reads, the line under its end, and, spec
    wording, "prefix = editor.getLine(end.line).slice(0, end.column)". *)
Definition selectionOf `{Types} (this : CodeEditorWrapper.t) (w : World)
    : CodeEditor.IRange :=
  CodeEditor.IEditor.getSelection (CodeEditorWrapper.editor this) (editorState w).

Definition endLineOf `{Types} (this : CodeEditorWrapper.t) (w : World)
    : option Js.jsstring :=
  CodeEditor.IEditor.getLine (CodeEditorWrapper.editor this) (editorState w)
    (CodeEditor.line (CodeEditor.end_ (selectionOf this w))).

Definition prefixOf `{Types} (this : CodeEditorWrapper.t) (text : Js.jsstring)
    (w : World) : Js.jsstring :=
  Js.slice text 0 (CodeEditor.column (CodeEditor.end_ (selectionOf this w))).

(** An editor none of whose commands throws: the "well-behaved editor
    capability" the widget is written for. *)
Definition neverThrows `{Types} (ed : CodeEditor.IEditor.t) : Prop :=
  ∀ s,
    fst (CodeEditor.IEditor.focus ed s) = Normal tt
    ∧ fst (CodeEditor.IEditor.refresh ed s) = Normal tt
    ∧ (∀ width height, fst (CodeEditor.IEditor.setSize ed width height s) = Normal tt)
    ∧ fst (CodeEditor.IEditor.resizeToFit ed s) = Normal tt
    ∧ fst (CodeEditor.IEditor.dispose ed s) = Normal tt.

(** The world after the widget has made the call [c] on the editor and the
    editor has run the method [m]: the call completes as the method does,
    the editor is in the state the method left, and everything else is as
    it was. *)
Definition outcomeOf `{Types} (m : EdState → Completion unit * EdState)
    (c : Call) (w : World) : Completion unit * World :=
  (fst (m (editorState w)),
   {| classList := classList w; isDisposed := isDisposed w;
      isVisible := isVisible w; editorState := snd (m (editorState w));
      log := log w ++ [c] |}).

(** The world with the calls [cs] added to the log and nothing else
    changed. *)
Definition logged `{Types} (cs : list Call) (w : World) : World :=
  {| classList := classList w; isDisposed := isDisposed w;
     isVisible := isVisible w; editorState := editorState w;
     log := log w ++ cs |}.

(** Spec wording, the row of the table for after-attach: the action "run the
    base attach behavior, then request a visual update" has the guard "only
    if currently visible", so the base attach behaviour runs on a visible
    host only. *)
Definition attachGuardedByVisibility `{Types} (this : CodeEditorWrapper.t)
    (w : World) : Prop :=
  SuperOnAfterAttach ∈ calls (CodeEditorWrapper.onAfterAttach this) w →
  isVisible w = true.

(** How often [editor.dispose()] occurs in a log. *)
Definition disposals `{Types} (l : list Call) : nat :=
  length (List.filter isEditorDispose l).

(* ===================================================================== *)
(** ** A small editor to run the widget on                                *)
(* ===================================================================== *)

Module Demo.

(** The editor keeps the lines of its document and its selection; models,
    configurations and selection styles are numbered. *)
Definition types : Types :=
  {| EdState := list Js.jsstring * CodeEditor.IRange;
     IModel := nat; IConfig := nat; ISelectionStyle := nat |}.

Definition caret (line column : Z) : CodeEditor.IRange :=
  {| CodeEditor.start := {| CodeEditor.line := line; CodeEditor.column := column |};
     CodeEditor.end_ := {| CodeEditor.line := line; CodeEditor.column := column |} |}.

Definition range (l1 c1 l2 c2 : Z) : CodeEditor.IRange :=
  {| CodeEditor.start := {| CodeEditor.line := l1; CodeEditor.column := c1 |};
     CodeEditor.end_ := {| CodeEditor.line := l2; CodeEditor.column := c2 |} |}.

Section Editor.
#[local] Existing Instance types.

Definition quiet (s : EdState) : Completion unit * EdState := (Normal tt, s).

Definition lineAt (s : EdState) (n : Z) : option Js.jsstring :=
  if (n <? 0)%Z then None else fst s !! Z.to_nat n.

Definition editor (m : IModel) : CodeEditor.IEditor.t :=
  {| CodeEditor.IEditor.model := m;
     CodeEditor.IEditor.focus := quiet;
     CodeEditor.IEditor.refresh := quiet;
     CodeEditor.IEditor.setSize := fun _ _ => quiet;
     CodeEditor.IEditor.resizeToFit := quiet;
     CodeEditor.IEditor.getSelection := snd;
     CodeEditor.IEditor.getLine := lineAt;
     CodeEditor.IEditor.dispose := quiet |}.

Definition document : list Js.jsstring :=
  [Js.lit "def f():"; Js.lit "    x = 1"].

(** A factory that builds the editor on its model, and one that throws. *)
Definition factory (sel : CodeEditor.IRange) : CodeEditor.Factory :=
  fun o => Normal (editor (CodeEditor.IOptions.model o), (document, sel)).

Definition failing : CodeEditor.Factory :=
  fun _ => Abrupt (Thrown 1).

Definition options (f : CodeEditor.Factory) : CodeEditorWrapper.IOptions.t :=
  {| CodeEditorWrapper.IOptions.factory := f;
     CodeEditorWrapper.IOptions.model := 7;
     CodeEditorWrapper.IOptions.uuid := Some "u-1"%string;
     CodeEditorWrapper.IOptions.config := None;
     CodeEditorWrapper.IOptions.selectionStyle := Some 3 |}.

Definition this : CodeEditorWrapper.t :=
  {| CodeEditorWrapper.node := 1; CodeEditorWrapper.editor := editor 7 |}.

(** An editor whose [dispose] throws, after noting the attempt by dropping
    its document. *)
Definition brittle (m : IModel) : CodeEditor.IEditor.t :=
  {| CodeEditor.IEditor.model := m;
     CodeEditor.IEditor.focus := quiet;
     CodeEditor.IEditor.refresh := quiet;
     CodeEditor.IEditor.setSize := fun _ _ => quiet;
     CodeEditor.IEditor.resizeToFit := quiet;
     CodeEditor.IEditor.getSelection := snd;
     CodeEditor.IEditor.getLine := lineAt;
     CodeEditor.IEditor.dispose := fun s => (Abrupt (Thrown 2), ([], snd s)) |}.

Definition brittleThis : CodeEditorWrapper.t :=
  {| CodeEditorWrapper.node := 2; CodeEditorWrapper.editor := brittle 7 |}.

(** A world with the given flags and selection over [document]. *)
Definition world (classes : gset string) (disposed visible : bool)
    (sel : CodeEditor.IRange) : World :=
  {| classList := classes; isDisposed := disposed; isVisible := visible;
     editorState := (document, sel); log := [] |}.

End Editor.
End Demo.

(* ===================================================================== *)
(** ** The runtime: [slice] and [/^\s+$/]                                 *)
(* ===================================================================== *)

Section JsFacts.

Lemma slice_prefix (s : Js.jsstring) (k : Z) :
  (0 ≤ k)%Z → Js.slice s 0 k = take (Z.to_nat k) s.
Proof.
  intros Hk. unfold Js.slice, Js.clampIndex.
  assert (Hk' : (k <? 0)%Z = false) by (apply Z.ltb_ge; lia).
  rewrite Hk'. change (0 <? 0)%Z with false. cbv iota.
  rewrite (Z.min_l 0) by lia. rewrite Z.sub_0_r. change (Z.to_nat 0) with 0%nat.
  rewrite drop_0.
  destruct (Z.min_spec k (Z.of_nat (length s))) as [[Hlt ->]|[Hge ->]].
  - f_equal. lia.
  - rewrite Z.max_l by lia. rewrite Nat2Z.id.
    rewrite !take_ge; [reflexivity | lia | lia].
Qed.

Lemma slice_0_0 (s : Js.jsstring) : Js.slice s 0 0 = [].
Proof. rewrite slice_prefix by lia. reflexivity. Qed.

(** The continuation [$] accepts exactly the end of the input. *)
Lemma plus_then_end cls (i : nat) (s : Js.jsstring) :
  Js.plus cls (Js.matchAt [Js.AssertEnd]) i s
  = if forallb cls s && negb (bool_decide (s = []))
    then Some (i + length s)%nat else None.
Proof.
  revert i. induction s as [|c r IH]; intros i; [reflexivity|].
  cbn [Js.plus forallb]. destruct (cls c); [|reflexivity].
  rewrite IH. cbn [andb].
  destruct r as [|c' r']; cbn.
  - f_equal. lia.
  - destruct (cls c' && forallb cls r'); cbn; [f_equal; lia | reflexivity].
Qed.

(** [^] fails at every offset but the first. *)
Lemma exec_anchored_later p (i : nat) (s : Js.jsstring) :
  Js.execFrom (Js.AssertStart :: p) (S i) s = None.
Proof. revert i. induction s as [|c r IH]; intros i; cbn; [reflexivity | apply IH]. Qed.

Lemma match_leadingWhitespaceRe (s : Js.jsstring) :
  Js.truthy (Js.match_ s leadingWhitespaceRe)
  = forallb Js.isWhiteSpace s && negb (bool_decide (s = [])).
Proof.
  unfold Js.match_, leadingWhitespaceRe.
  destruct s as [|c r].
  - reflexivity.
  - cbn [Js.execFrom Js.matchAt Nat.eqb]. rewrite plus_then_end.
    match goal with |- context [if ?b then _ else _] => destruct b end.
    + reflexivity.
    + rewrite exec_anchored_later. reflexivity.
Qed.

(** The pattern decides the words of the specification. *)
Lemma match_nonEmptyWhitespace (s : Js.jsstring) :
  Js.truthy (Js.match_ s leadingWhitespaceRe) = true ↔ nonEmptyWhitespace s.
Proof.
  unfold nonEmptyWhitespace.
  rewrite match_leadingWhitespaceRe, andb_true_iff, negb_true_iff.
  rewrite bool_decide_eq_false, forallb_forall, List.Forall_forall. tauto.
Qed.

Lemma match_hasNonWhitespace (s : Js.jsstring) :
  hasNonWhitespace s → Js.truthy (Js.match_ s leadingWhitespaceRe) = false.
Proof.
  intros Hex. apply not_true_iff_false. rewrite match_nonEmptyWhitespace.
  intros [_ Hall]. unfold hasNonWhitespace in Hex.
  rewrite List.Exists_exists in Hex. destruct Hex as (c & Hc & Hws).
  rewrite List.Forall_forall in Hall. specialize (Hall c Hc). congruence.
Qed.

End JsFacts.

(* ===================================================================== *)
(** ** Class lists                                                        *)
(* ===================================================================== *)

Section ClassList.
Implicit Types (X : gset string) (a b : string).

Lemma added_present X a b : a ≠ b → a ∈ ({[a]} ∪ X) ∖ {[b]}.
Proof.
  intros Hne. apply elem_of_difference. split.
  - apply elem_of_union_l, elem_of_singleton. reflexivity.
  - intros Hb. apply elem_of_singleton in Hb. contradiction.
Qed.

Lemma removed_absent X a : a ∉ X ∖ {[a]}.
Proof.
  intros Hin. apply elem_of_difference in Hin as [_ Hn].
  apply Hn, elem_of_singleton. reflexivity.
Qed.

Lemma added_after_removed X a b : a ∈ {[a]} ∪ (X ∖ {[b]}).
Proof. apply elem_of_union_l, elem_of_singleton. reflexivity. Qed.

Lemma absent_after_adding_other X a b : a ≠ b → b ∉ {[a]} ∪ (X ∖ {[b]}).
Proof.
  intros Hne Hin. apply elem_of_union in Hin as [Hin|Hin].
  - apply elem_of_singleton in Hin. congruence.
  - exact (removed_absent X b Hin).
Qed.

Lemma absent_after_removing_other X a b : a ∉ (X ∖ {[a]}) ∖ {[b]}.
Proof.
  intros Hin. apply elem_of_difference in Hin as [Hin _].
  exact (removed_absent X a Hin).
Qed.

End ClassList.

(* ===================================================================== *)
(** ** The handlers                                                       *)
(* ===================================================================== *)

(** Unfold a handler down to the world it returns. *)
Ltac run :=
  unfold calls, after, completion,
    CodeEditorWrapper.deliver,
    CodeEditorWrapper.dispose, CodeEditorWrapper.onActivateRequest,
    CodeEditorWrapper.onAfterAttach, CodeEditorWrapper.onAfterShow,
    CodeEditorWrapper.onResize, CodeEditorWrapper.onUpdateRequest,
    CodeEditorWrapper._onSelectionsChanged, CodeEditorWrapper.receiver,
    Widget.dispose, Widget.onAfterAttach, Widget.update,
    Widget.addClass, Widget.removeClass, Widget.get_isDisposed,
    Widget.get_isVisible, Widget.setDisposed,
    record, command, query, throw, mbind, M_bind, mret, M_ret;
  cbn [fst snd classList isDisposed isVisible editorState log].

(** Split on the completion of the editor command under the goal. *)
Ltac editor_returns :=
  match goal with
  | |- context [let (_, _) := ?m ?s in _] =>
      let r := fresh "r" in let s' := fresh "s'" in
      destruct (m s) as [r s']; cbn [fst snd log classList isDisposed]
  end.

Section Handlers.
Context `{Types} (this : CodeEditorWrapper.t).

Lemma onActivateRequest_calls w :
  calls (CodeEditorWrapper.onActivateRequest this) w = [CallFocus].
Proof. run. editor_returns. destruct r; cbn; apply drop_app_length. Qed.

Lemma onUpdateRequest_calls w :
  calls (CodeEditorWrapper.onUpdateRequest this) w = [CallRefresh].
Proof. run. editor_returns. destruct r; cbn; apply drop_app_length. Qed.

Lemma onAfterShow_calls w :
  calls (CodeEditorWrapper.onAfterShow this) w = [Update].
Proof. run. apply drop_app_length. Qed.

Lemma onAfterAttach_calls w :
  calls (CodeEditorWrapper.onAfterAttach this) w
  = SuperOnAfterAttach :: (if isVisible w then [Update] else []).
Proof.
  run. destruct (isVisible w); cbn.
  - rewrite <- app_assoc. apply drop_app_length.
  - apply drop_app_length.
Qed.

Lemma onResize_calls width height w :
  calls (CodeEditorWrapper.onResize this width height) w
  = if ((0 <=? width)%Z && (0 <=? height)%Z)%bool
    then [CallSetSize width height]
    else if isVisible w then [CallResizeToFit] else [].
Proof.
  run. destruct ((0 <=? width)%Z && (0 <=? height)%Z)%bool.
  - editor_returns. destruct r; cbn; apply drop_app_length.
  - destruct (isVisible w); cbn.
    + editor_returns. destruct r; cbn; apply drop_app_length.
    + apply drop_all.
Qed.

Lemma valid_size_iff (width height : Z) :
  ((0 <=? width)%Z && (0 <=? height)%Z)%bool = true
  ↔ (0 ≤ width)%Z ∧ (0 ≤ height)%Z.
Proof. rewrite andb_true_iff, !Z.leb_le. tauto. Qed.

Lemma forwarded_outcome (m : EdState → Completion unit * EdState)
    (c : Call) w :
  (record c ;; command m) w = outcomeOf m c w.
Proof.
  unfold outcomeOf. run. destruct (m (editorState w)) as [r s].
  destruct r; reflexivity.
Qed.

Lemma onResize_valid width height w :
  (0 ≤ width)%Z ∧ (0 ≤ height)%Z →
  CodeEditorWrapper.onResize this width height w
  = outcomeOf (CodeEditor.IEditor.setSize (CodeEditorWrapper.editor this)
                 width height)
      (CallSetSize width height) w.
Proof.
  intros Hok. unfold CodeEditorWrapper.onResize.
  destruct (valid_size_iff width height) as [_ Hv]. rewrite (Hv Hok).
  apply forwarded_outcome.
Qed.

Lemma onResize_unknown_visible width height w :
  ¬ ((0 ≤ width)%Z ∧ (0 ≤ height)%Z) → isVisible w = true →
  CodeEditorWrapper.onResize this width height w
  = outcomeOf (CodeEditor.IEditor.resizeToFit (CodeEditorWrapper.editor this))
      CallResizeToFit w.
Proof.
  intros Hbad Hvis. unfold CodeEditorWrapper.onResize.
  destruct ((0 <=? width)%Z && (0 <=? height)%Z)%bool eqn:E.
  - exfalso. apply Hbad, valid_size_iff, E.
  - rewrite <- forwarded_outcome. run. rewrite Hvis. run. rewrite ?Hvis.
    reflexivity.
Qed.

Lemma onResize_unknown_hidden width height w :
  ¬ ((0 ≤ width)%Z ∧ (0 ≤ height)%Z) → isVisible w = false →
  CodeEditorWrapper.onResize this width height w = (Normal tt, w).
Proof.
  intros Hbad Hhid. unfold CodeEditorWrapper.onResize.
  destruct ((0 <=? width)%Z && (0 <=? height)%Z)%bool eqn:E.
  - exfalso. apply Hbad, valid_size_iff, E.
  - run. rewrite Hhid. reflexivity.
Qed.

(** C4.  A resize notification with both dimensions non-negative applies
    [editor.setSize] to the dimensions it carries, whatever the visibility:
    the handler completes as that call completes and leaves the editor in
    the state that call left.  With a negative dimension on a visible host
    it applies [editor.resizeToFit] instead, and on a hidden host nothing
    happens at all: the world is left as it was and the handler returns.
    So [setSize] is called exactly when both dimensions are non-negative,
    and with a negative dimension [resizeToFit] exactly when the host is
    visible. *)
Theorem onResize_guards width height w :
  let m := CodeEditorWrapper.onResize this width height in
  let ed := CodeEditorWrapper.editor this in
  (CallSetSize width height ∈ calls m w ↔ (0 ≤ width)%Z ∧ (0 ≤ height)%Z)
  ∧ ((0 ≤ width)%Z ∧ (0 ≤ height)%Z →
     calls m w = [CallSetSize width height]
     ∧ m w = outcomeOf (CodeEditor.IEditor.setSize ed width height)
               (CallSetSize width height) w)
  ∧ (¬ ((0 ≤ width)%Z ∧ (0 ≤ height)%Z) →
     (CallResizeToFit ∈ calls m w ↔ isVisible w = true)
     ∧ (isVisible w = true →
        calls m w = [CallResizeToFit]
        ∧ m w = outcomeOf (CodeEditor.IEditor.resizeToFit ed)
                  CallResizeToFit w)
     ∧ (isVisible w = false → m w = (Normal tt, w))).
Proof.
  intros m ed. subst m ed. rewrite onResize_calls.
  pose proof (valid_size_iff width height) as Hv.
  destruct ((0 <=? width)%Z && (0 <=? height)%Z)%bool eqn:E.
  - assert (Hok : (0 ≤ width)%Z ∧ (0 ≤ height)%Z) by (apply Hv; reflexivity).
    split; [|split].
    + split; [intros _; exact Hok | intros _; apply list_elem_of_here].
    + intros _. split; [reflexivity | apply onResize_valid, Hok].
    + intros Hn. contradiction.
  - assert (Hbad : ¬ ((0 ≤ width)%Z ∧ (0 ≤ height)%Z)).
    { intros Hok. apply Hv in Hok. discriminate. }
    split; [|split].
    + split; [|intros Hok; contradiction].
      destruct (isVisible w); intros Hin.
      * apply list_elem_of_singleton in Hin. discriminate.
      * apply elem_of_nil in Hin. contradiction.
    + intros Hok. contradiction.
    + intros _. split; [|split].
      * destruct (isVisible w); split; try reflexivity; try discriminate.
        -- intros _. apply list_elem_of_here.
        -- intros Hin. apply elem_of_nil in Hin. contradiction.
      * intros Hvis. split; [rewrite Hvis; reflexivity|].
        apply onResize_unknown_visible; assumption.
      * intros Hhid. apply onResize_unknown_hidden; assumption.
Qed.

Lemma onAfterAttach_outcome w :
  CodeEditorWrapper.onAfterAttach this w
  = (Normal tt,
     logged (SuperOnAfterAttach :: (if isVisible w then [Update] else [])) w).
Proof.
  unfold logged. run. destruct (isVisible w); cbn [fst snd log].
  - rewrite <- app_assoc. reflexivity.
  - reflexivity.
Qed.

(** C8, as amended.  After-attach runs the base attach behaviour first,
    whatever the visibility, and then requests a visual update exactly when
    the host is visible; it does nothing else.  After-show requests a visual
    update, whatever the state of the host, and does nothing else.  An
    update-request applies [editor.refresh], whatever the state of the host:
    the handler completes as that call completes and leaves the editor in
    the state that call left. *)
Theorem attach_show_update w :
  CodeEditorWrapper.onAfterAttach this w
    = (Normal tt,
       logged (SuperOnAfterAttach :: (if isVisible w then [Update] else [])) w)
  ∧ calls (CodeEditorWrapper.onAfterAttach this) w
    = SuperOnAfterAttach :: (if isVisible w then [Update] else [])
  ∧ (Update ∈ calls (CodeEditorWrapper.onAfterAttach this) w
     ↔ isVisible w = true)
  ∧ CodeEditorWrapper.onAfterShow this w = (Normal tt, logged [Update] w)
  ∧ calls (CodeEditorWrapper.onAfterShow this) w = [Update]
  ∧ CodeEditorWrapper.onUpdateRequest this w
    = outcomeOf (CodeEditor.IEditor.refresh (CodeEditorWrapper.editor this))
        CallRefresh w
  ∧ calls (CodeEditorWrapper.onUpdateRequest this) w = [CallRefresh].
Proof.
  rewrite onAfterAttach_calls, onAfterShow_calls, onUpdateRequest_calls.
  split; [apply onAfterAttach_outcome|]. split; [reflexivity|]. split.
  - split.
    + destruct (isVisible w); [reflexivity|].
      intros Hin. apply list_elem_of_singleton in Hin. discriminate.
    + intros ->. apply list_elem_of_further, list_elem_of_here.
  - split; [reflexivity|]. split; [reflexivity|].
    split; [apply forwarded_outcome | reflexivity].
Qed.

(** *** The selection classifier *)

Lemma flags_differ : HAS_SELECTION_CLASS ≠ HAS_IN_LEADING_WHITESPACE_CLASS.
Proof. discriminate. Qed.

Lemma range_test (sel : CodeEditor.IRange) :
  (negb (CodeEditor.column (CodeEditor.start sel)
         =? CodeEditor.column (CodeEditor.end_ sel))%Z
   || negb (CodeEditor.line (CodeEditor.start sel)
            =? CodeEditor.line (CodeEditor.end_ sel))%Z)%bool = true
  ↔ isRange sel.
Proof.
  unfold isRange. rewrite orb_true_iff, !negb_true_iff, !Z.eqb_neq. tauto.
Qed.

Lemma caret_test (sel : CodeEditor.IRange) :
  (negb (CodeEditor.column (CodeEditor.start sel)
         =? CodeEditor.column (CodeEditor.end_ sel))%Z
   || negb (CodeEditor.line (CodeEditor.start sel)
            =? CodeEditor.line (CodeEditor.end_ sel))%Z)%bool = false
  ↔ isCaret sel.
Proof.
  unfold isCaret. rewrite orb_false_iff, !negb_false_iff, !Z.eqb_eq. tauto.
Qed.

Lemma caret_not_range sel : isCaret sel → ¬ isRange sel.
Proof. unfold isCaret, isRange. tauto. Qed.

Lemma selection_handler_cases w :
  isRange (selectionOf this w) ∨ isCaret (selectionOf this w).
Proof.
  destruct (negb (CodeEditor.column (CodeEditor.start (selectionOf this w))
                  =? CodeEditor.column (CodeEditor.end_ (selectionOf this w)))%Z
            || negb (CodeEditor.line (CodeEditor.start (selectionOf this w))
                     =? CodeEditor.line (CodeEditor.end_ (selectionOf this w)))%Z)%bool
    eqn:E.
  - left. apply range_test, E.
  - right. apply caret_test, E.
Qed.

Lemma selection_range w :
  isRange (selectionOf this w) →
  CodeEditorWrapper._onSelectionsChanged this w
  = (Normal tt,
     {| classList :=
          ({[HAS_SELECTION_CLASS]} ∪ classList w)
            ∖ {[HAS_IN_LEADING_WHITESPACE_CLASS]};
        isDisposed := isDisposed w; isVisible := isVisible w;
        editorState := editorState w;
        log := log w ++ [CallGetSelection] |}).
Proof.
  intros Hr. apply range_test in Hr. unfold selectionOf in Hr.
  run. rewrite Hr. reflexivity.
Qed.

Lemma selection_caret w text :
  isCaret (selectionOf this w) → endLineOf this w = Some text →
  CodeEditorWrapper._onSelectionsChanged this w
  = (Normal tt,
     {| classList :=
          if Js.truthy (Js.match_ (prefixOf this text w) leadingWhitespaceRe)
          then {[HAS_IN_LEADING_WHITESPACE_CLASS]}
                 ∪ (classList w ∖ {[HAS_SELECTION_CLASS]})
          else (classList w ∖ {[HAS_SELECTION_CLASS]})
                 ∖ {[HAS_IN_LEADING_WHITESPACE_CLASS]};
        isDisposed := isDisposed w; isVisible := isVisible w;
        editorState := editorState w;
        log := (log w ++ [CallGetSelection])
                 ++ [CallGetLine (CodeEditor.line (CodeEditor.end_ (selectionOf this w)))] |}).
Proof.
  intros Hc Hl. apply caret_test in Hc.
  unfold endLineOf, prefixOf, selectionOf in *.
  run. rewrite Hc. run. rewrite Hl. run.
  destruct (Js.truthy _); reflexivity.
Qed.

Lemma selection_caret_undefined w :
  isCaret (selectionOf this w) → endLineOf this w = None →
  CodeEditorWrapper._onSelectionsChanged this w
  = (Abrupt TypeError,
     {| classList := classList w ∖ {[HAS_SELECTION_CLASS]};
        isDisposed := isDisposed w; isVisible := isVisible w;
        editorState := editorState w;
        log := (log w ++ [CallGetSelection])
                 ++ [CallGetLine (CodeEditor.line (CodeEditor.end_ (selectionOf this w)))] |}).
Proof.
  intros Hc Hl. apply caret_test in Hc.
  unfold endLineOf, selectionOf in *.
  run. rewrite Hc. run. rewrite Hl. reflexivity.
Qed.

(** C1.  When the selection that [editor.getSelection()] returns has a
    start and an end that differ in line or in column, the
    selection-changed handler returns with [HAS_SELECTION] on the node and
    [HAS_IN_LEADING_WHITESPACE] off it. *)
Theorem range_selection_flags w :
  isRange (selectionOf this w) →
  let w' := after (CodeEditorWrapper._onSelectionsChanged this) w in
  completion (CodeEditorWrapper._onSelectionsChanged this) w = Normal tt
  ∧ HAS_SELECTION_CLASS ∈ classList w'
  ∧ HAS_IN_LEADING_WHITESPACE_CLASS ∉ classList w'.
Proof.
  intros Hr w'. subst w'. unfold after, completion.
  rewrite (selection_range w Hr). cbn [fst snd classList].
  split; [reflexivity|]. split.
  - apply added_present, flags_differ.
  - apply removed_absent.
Qed.

(** C2.  For a caret (start and end equal in line and in column) on a
    line whose prefix up to the caret column is non-empty and all
    whitespace, the handler returns with [HAS_IN_LEADING_WHITESPACE] on the
    node and [HAS_SELECTION] off it; when the prefix holds a character that
    is not whitespace, it returns with [HAS_IN_LEADING_WHITESPACE] off the
    node (and [HAS_SELECTION] off it as well). *)
Theorem caret_leading_whitespace_flags w text :
  isCaret (selectionOf this w) → endLineOf this w = Some text →
  let w' := after (CodeEditorWrapper._onSelectionsChanged this) w in
  completion (CodeEditorWrapper._onSelectionsChanged this) w = Normal tt
  ∧ (nonEmptyWhitespace (prefixOf this text w) →
     HAS_IN_LEADING_WHITESPACE_CLASS ∈ classList w'
     ∧ HAS_SELECTION_CLASS ∉ classList w')
  ∧ (hasNonWhitespace (prefixOf this text w) →
     (HAS_IN_LEADING_WHITESPACE_CLASS ∉ classList w')
     ∧ HAS_SELECTION_CLASS ∉ classList w').
Proof.
  intros Hc Hl w'. subst w'. unfold after, completion.
  rewrite (selection_caret w text Hc Hl). cbn [fst snd classList].
  split; [reflexivity|]. split.
  - intros Hws. apply match_nonEmptyWhitespace in Hws. rewrite Hws. split.
    + apply added_after_removed.
    + apply absent_after_adding_other. apply not_eq_sym, flags_differ.
  - intros Hnw. apply match_hasNonWhitespace in Hnw. rewrite Hnw. split.
    + apply removed_absent.
    + apply absent_after_removing_other.
Qed.

(** C3.  For a caret at column 0 of a line, the prefix is empty, the
    pattern (which asks for at least one whitespace character) does not
    match it, and the handler returns with both
    [HAS_IN_LEADING_WHITESPACE] and [HAS_SELECTION] off the node. *)
Theorem caret_at_line_start_flags w text :
  isCaret (selectionOf this w) → endLineOf this w = Some text →
  CodeEditor.column (CodeEditor.end_ (selectionOf this w)) = 0%Z →
  let w' := after (CodeEditorWrapper._onSelectionsChanged this) w in
  completion (CodeEditorWrapper._onSelectionsChanged this) w = Normal tt
  ∧ prefixOf this text w = []
  ∧ Js.match_ (prefixOf this text w) leadingWhitespaceRe = None
  ∧ (HAS_IN_LEADING_WHITESPACE_CLASS ∉ classList w')
  ∧ HAS_SELECTION_CLASS ∉ classList w'.
Proof.
  intros Hc Hl Hcol w'. subst w'. unfold after, completion.
  rewrite (selection_caret w text Hc Hl). cbn [fst snd classList].
  assert (Hp : prefixOf this text w = []).
  { unfold prefixOf. rewrite Hcol. apply slice_0_0. }
  rewrite Hp. cbn [Js.truthy Js.match_ Js.execFrom Js.matchAt leadingWhitespaceRe Nat.eqb Js.plus].
  split; [reflexivity|]. split; [reflexivity|]. split; [reflexivity|]. split.
  - apply removed_absent.
  - apply absent_after_removing_other.
Qed.

(** C9.  The handler returns normally exactly when the selection is a
    range or [editor.getLine(end.line)] is a string.  For a caret whose end
    line [getLine] answers with [undefined], the handler has already taken
    [HAS_SELECTION] off the node when slicing the answer throws a
    [TypeError]; for a range selection it never asks [getLine], and
    returns whatever [getLine] would answer. *)
Theorem selection_handler_total_iff w :
  let m := CodeEditorWrapper._onSelectionsChanged this in
  (completion m w = Normal tt
   ↔ isRange (selectionOf this w) ∨ is_Some (endLineOf this w))
  ∧ (isCaret (selectionOf this w) → endLineOf this w = None →
     completion m w = Abrupt TypeError
     ∧ CallGetLine (CodeEditor.line (CodeEditor.end_ (selectionOf this w)))
         ∈ calls m w)
  ∧ (isRange (selectionOf this w) →
     completion m w = Normal tt ∧ List.filter isGetLine (calls m w) = []).
Proof.
  intros m. subst m.
  pose proof (selection_handler_cases w) as Hcases.
  split; [|split].
  - destruct Hcases as [Hr|Hc].
    + unfold completion. rewrite (selection_range w Hr). cbn. tauto.
    + destruct (endLineOf this w) as [text|] eqn:Hl.
      * unfold completion. rewrite (selection_caret w text Hc Hl). cbn.
        split; [intros _; right; eexists; reflexivity | reflexivity].
      * unfold completion. rewrite (selection_caret_undefined w Hc Hl). cbn.
        split; [discriminate|].
        intros [Hr|[x Hx]]; [|discriminate].
        exfalso. exact (caret_not_range _ Hc Hr).
  - intros Hc Hl. unfold completion, calls, after.
    rewrite (selection_caret_undefined w Hc Hl). cbn [fst snd log].
    split; [reflexivity|].
    rewrite <- app_assoc, drop_app_length.
    apply list_elem_of_further, list_elem_of_here.
  - intros Hr. unfold completion, calls, after.
    rewrite (selection_range w Hr). cbn [fst snd log].
    split; [reflexivity|]. rewrite drop_app_length. reflexivity.
Qed.

(** *** The two markers exclude each other *)

Lemma selection_exclusive w :
  CodeEditorWrapper.flagsExclusive
    (after (CodeEditorWrapper._onSelectionsChanged this) w).
Proof.
  unfold CodeEditorWrapper.flagsExclusive, after.
  destruct (selection_handler_cases w) as [Hr|Hc].
  - rewrite (selection_range w Hr). cbn [snd classList].
    intros [_ Hws]. exact (removed_absent _ _ Hws).
  - destruct (endLineOf this w) as [text|] eqn:Hl.
    + rewrite (selection_caret w text Hc Hl). cbn [snd classList].
      destruct (Js.truthy _); intros [Hsel Hws].
      * revert Hsel. apply absent_after_adding_other.
        apply not_eq_sym, flags_differ.
      * exact (removed_absent _ _ Hws).
    + rewrite (selection_caret_undefined w Hc Hl). cbn [snd classList].
      intros [Hsel _]. exact (removed_absent _ _ Hsel).
Qed.

Lemma deliver_keeps_classes n w :
  n ≠ CodeEditorWrapper.SelectionsChanged →
  classList (after (CodeEditorWrapper.deliver this n) w) = classList w.
Proof.
  intros Hn. destruct n; try contradiction; run.
  - editor_returns. destruct r; reflexivity.
  - destruct (isVisible w); reflexivity.
  - reflexivity.
  - destruct ((0 <=? width)%Z && (0 <=? height)%Z)%bool.
    + editor_returns. destruct r; reflexivity.
    + destruct (isVisible w); [|reflexivity].
      editor_returns. destruct r; reflexivity.
  - editor_returns. destruct r; reflexivity.
  - destruct (isDisposed w); run; [reflexivity|].
    editor_returns. destruct r; reflexivity.
Qed.

Lemma step_exclusive w w' :
  CodeEditorWrapper.step this w w' →
  CodeEditorWrapper.flagsExclusive w → CodeEditorWrapper.flagsExclusive w'.
Proof.
  intros Hstep Hinv. destruct Hstep as [n w|w visible s].
  - destruct n;
      try (unfold CodeEditorWrapper.flagsExclusive;
           rewrite deliver_keeps_classes by discriminate; exact Hinv).
    apply selection_exclusive.
  - exact Hinv.
Qed.

End Handlers.

Section Lifetime.
Context `{Types}.

Lemma constructed_without_classes nd options this w :
  CodeEditorWrapper.constructor nd options = CodeEditorWrapper.New this w →
  classList w = ∅.
Proof.
  unfold CodeEditorWrapper.constructor.
  destruct (CodeEditorWrapper.IOptions.factory options _) as [[ed s]|e];
    [|discriminate].
  intros Hnew. injection Hnew as _ <-. reflexivity.
Qed.

Lemma reachable_exclusive nd options this w :
  CodeEditorWrapper.reachable nd options this w →
  CodeEditorWrapper.flagsExclusive w.
Proof.
  induction 1 as [this w Hnew|this w w' Hreach IH Hstep].
  - unfold CodeEditorWrapper.flagsExclusive.
    rewrite (constructed_without_classes _ _ _ _ Hnew).
    intros [Hsel _]. exact (not_elem_of_empty _ Hsel).
  - exact (step_exclusive this w w' Hstep IH).
Qed.

(** C5.  After the selection-changed handler has run, from any world and
    however it completes, at most one of [HAS_SELECTION] and
    [HAS_IN_LEADING_WHITESPACE] is on the node; every other notification
    leaves the class list as it was; hence in every world a constructed
    widget can reach, at most one of the two is on the node. *)
Theorem style_flags_exclusive this :
  (∀ w, CodeEditorWrapper.flagsExclusive
          (after (CodeEditorWrapper._onSelectionsChanged this) w))
  ∧ (∀ n w, n ≠ CodeEditorWrapper.SelectionsChanged →
       classList (after (CodeEditorWrapper.deliver this n) w) = classList w)
  ∧ (∀ nd options w,
       CodeEditorWrapper.reachable nd options this w →
       CodeEditorWrapper.flagsExclusive w).
Proof.
  split; [exact (selection_exclusive this)|].
  split; [exact (deliver_keeps_classes this)|].
  intros nd options w. apply reachable_exclusive.
Qed.

End Lifetime.

(* ===================================================================== *)
(** ** Disposal                                                           *)
(* ===================================================================== *)

Section Disposal.
Context `{Types} (this : CodeEditorWrapper.t).

(** A disposed host: the guard returns before anything is done. *)
Lemma dispose_again w :
  isDisposed w = true → CodeEditorWrapper.dispose this w = (Normal tt, w).
Proof. intros Hd. run. rewrite Hd. reflexivity. Qed.


Lemma dispose_marks w :
  isDisposed (after (CodeEditorWrapper.dispose this) w) = true.
Proof.
  destruct (isDisposed w) eqn:Hd.
  - unfold after. rewrite (dispose_again w Hd). exact Hd.
  - run. rewrite Hd. run. editor_returns. destruct r; reflexivity.
Qed.





(** *** Handlers that do not look at the disposed flag *)

Lemma deliver_ignores_disposed n b w :
  n ≠ CodeEditorWrapper.Dispose →
  CodeEditorWrapper.deliver this n (Widget.setDisposed b w)
  = (completion (CodeEditorWrapper.deliver this n) w,
     Widget.setDisposed b (after (CodeEditorWrapper.deliver this n) w)).
Proof.
  intros Hn. destruct n; try contradiction; run.
  - editor_returns. destruct r; reflexivity.
  - destruct (isVisible w); reflexivity.
  - reflexivity.
  - destruct ((0 <=? width)%Z && (0 <=? height)%Z)%bool; run.
    + editor_returns. destruct r; reflexivity.
    + destruct (isVisible w) eqn:Ev; run; rewrite ?Ev; [|reflexivity].
      editor_returns. destruct r; reflexivity.
  - editor_returns. destruct r; reflexivity.
  - destruct (negb _ || negb _)%bool; run; [reflexivity|].
    destruct (CodeEditor.IEditor.getLine _ _ _) as [text|]; run; [|reflexivity].
    destruct (Js.truthy _); reflexivity.
Qed.

(** C10.  Whatever the disposed flag of the host says, and so on a host
    that is already disposed as well, an activate-request applies
    [editor.focus], an update-request applies [editor.refresh], and a resize
    applies [editor.setSize] or [editor.resizeToFit] under the usual guards:
    each handler completes as the editor call completes and leaves the
    editor in the state that call left, the host staying disposed if it was.
    More generally no handler other than [dispose] reads the disposed flag:
    changing the flag changes neither what the handler does nor how it
    completes. *)
Theorem disposed_host_still_forwards w :
  let ed := CodeEditorWrapper.editor this in
  (CodeEditorWrapper.onActivateRequest this w
     = outcomeOf (CodeEditor.IEditor.focus ed) CallFocus w
   ∧ calls (CodeEditorWrapper.onActivateRequest this) w = [CallFocus])
  ∧ (CodeEditorWrapper.onUpdateRequest this w
       = outcomeOf (CodeEditor.IEditor.refresh ed) CallRefresh w
     ∧ calls (CodeEditorWrapper.onUpdateRequest this) w = [CallRefresh])
  ∧ (∀ width height,
       ((0 ≤ width)%Z ∧ (0 ≤ height)%Z →
        CodeEditorWrapper.onResize this width height w
        = outcomeOf (CodeEditor.IEditor.setSize ed width height)
            (CallSetSize width height) w)
       ∧ (¬ ((0 ≤ width)%Z ∧ (0 ≤ height)%Z) → isVisible w = true →
          CodeEditorWrapper.onResize this width height w
          = outcomeOf (CodeEditor.IEditor.resizeToFit ed) CallResizeToFit w)
       ∧ (¬ ((0 ≤ width)%Z ∧ (0 ≤ height)%Z) → isVisible w = false →
          CodeEditorWrapper.onResize this width height w = (Normal tt, w))
       ∧ calls (CodeEditorWrapper.onResize this width height) w
         = if ((0 <=? width)%Z && (0 <=? height)%Z)%bool
           then [CallSetSize width height]
           else if isVisible w then [CallResizeToFit] else [])
  ∧ (∀ n b, n ≠ CodeEditorWrapper.Dispose →
       CodeEditorWrapper.deliver this n (Widget.setDisposed b w)
       = (completion (CodeEditorWrapper.deliver this n) w,
          Widget.setDisposed b (after (CodeEditorWrapper.deliver this n) w))).
Proof.
  intros ed. subst ed.
  split; [split; [apply forwarded_outcome | apply onActivateRequest_calls]|].
  split; [split; [apply forwarded_outcome | apply onUpdateRequest_calls]|].
  split.
  - intros width height. split; [apply onResize_valid|].
    split; [apply onResize_unknown_visible|].
    split; [apply onResize_unknown_hidden | apply onResize_calls].
  - intros n b Hn. apply deliver_ignores_disposed, Hn.
Qed.

End Disposal.

(* ===================================================================== *)
(** ** Construction                                                       *)
(* ===================================================================== *)

Section Construction.
Context `{Types}.

(** C7.  The constructor calls the factory once, with the node of the
    host as [host] and with [model], [uuid], [config] and
    [selectionStyle] as they came in.  When the factory returns an editor,
    the host keeps that editor and the handler is then connected to the
    selections of the editor's model, with the host as receiver; when the
    factory throws, the thrown value is what construction completes with,
    and no connection has been made. *)
Theorem constructor_contract nd options :
  let o := CodeEditorWrapper.factoryArgument nd options in
  let c := CodeEditorWrapper.constructor nd options in
  (CodeEditor.IOptions.host o = nd
   ∧ CodeEditor.IOptions.model o = CodeEditorWrapper.IOptions.model options
   ∧ CodeEditor.IOptions.uuid o = CodeEditorWrapper.IOptions.uuid options
   ∧ CodeEditor.IOptions.config o = CodeEditorWrapper.IOptions.config options
   ∧ CodeEditor.IOptions.selectionStyle o
     = CodeEditorWrapper.IOptions.selectionStyle options)
  ∧ List.filter isFactory (CodeEditorWrapper.madeBy c) = [CallFactory o]
  ∧ (∀ ed s,
       CodeEditorWrapper.IOptions.factory options o = Normal (ed, s) →
       ∃ w,
         c = CodeEditorWrapper.New
               {| CodeEditorWrapper.node := nd;
                  CodeEditorWrapper.editor := ed |} w
         ∧ editorState w = s
         ∧ log w = [CallFactory o;
                    CallConnect (CodeEditor.IEditor.model ed) nd])
  ∧ (∀ e,
       CodeEditorWrapper.IOptions.factory options o = Abrupt e →
       c = CodeEditorWrapper.Failed e [CallFactory o]
       ∧ List.filter isConnect (CodeEditorWrapper.madeBy c) = []).
Proof.
  intros o c. subst o c. unfold CodeEditorWrapper.constructor.
  split; [repeat split|]. split; [|split].
  - destruct (CodeEditorWrapper.IOptions.factory options _) as [[ed s]|e];
      reflexivity.
  - intros ed s ->. eexists. split; [reflexivity|]. split; reflexivity.
  - intros e ->. split; reflexivity.
Qed.

End Construction.

(* ===================================================================== *)
(** ** Runs on the small editor                                           *)
(* ===================================================================== *)

Section Runs.
#[local] Existing Instance Demo.types.

Example slice_prefix_4 :
  Js.slice (Js.lit "    x = 1") 0 4 = Js.lit "    ".
Proof. reflexivity. Qed.

Example match_prefix_4 :
  Js.match_ (Js.slice (Js.lit "    x = 1") 0 4) leadingWhitespaceRe
  = Some (0, 4)%nat.
Proof. reflexivity. Qed.

Example match_prefix_5 :
  Js.match_ (Js.slice (Js.lit "    x = 1") 0 5) leadingWhitespaceRe = None.
Proof. reflexivity. Qed.

Example match_empty : Js.match_ [] leadingWhitespaceRe = None.
Proof. reflexivity. Qed.

Example match_trailing_newline :
  Js.match_ (Js.lit "  " ++ [10%N]) leadingWhitespaceRe = Some (0, 3)%nat.
Proof. reflexivity. Qed.

Example slice_negative_end :
  Js.slice (Js.lit "  x") 0 (-1) = Js.lit "  ".
Proof. reflexivity. Qed.

(** A selection from column 0 to column 3 of the first line. *)
Lemma range_selection_flags_run :
  let w := Demo.world {[HAS_IN_LEADING_WHITESPACE_CLASS]} false true
             (Demo.range 0 0 0 3) in
  let w' := after (CodeEditorWrapper._onSelectionsChanged Demo.this) w in
  completion (CodeEditorWrapper._onSelectionsChanged Demo.this) w = Normal tt
  ∧ HAS_SELECTION_CLASS ∈ classList w'
  ∧ HAS_IN_LEADING_WHITESPACE_CLASS ∉ classList w'.
Proof.
  intros w. apply (range_selection_flags Demo.this w).
  left. cbn. lia.
Defined.

(** The line [    x = 1] with the caret at column 4, and at column 5. *)
Lemma caret_leading_whitespace_flags_run :
  let w4 := Demo.world {[HAS_SELECTION_CLASS]} false true (Demo.caret 1 4) in
  let w5 := Demo.world {[HAS_IN_LEADING_WHITESPACE_CLASS]} false true
              (Demo.caret 1 5) in
  let m := CodeEditorWrapper._onSelectionsChanged Demo.this in
  (HAS_IN_LEADING_WHITESPACE_CLASS ∈ classList (after m w4)
   ∧ HAS_SELECTION_CLASS ∉ classList (after m w4))
  ∧ ((HAS_IN_LEADING_WHITESPACE_CLASS ∉ classList (after m w5))
     ∧ HAS_SELECTION_CLASS ∉ classList (after m w5)).
Proof.
  intros w4 w5 m. split.
  - apply (caret_leading_whitespace_flags Demo.this w4 (Js.lit "    x = 1")).
    + split; reflexivity.
    + reflexivity.
    + split; [discriminate|]. vm_compute. repeat constructor.
  - apply (caret_leading_whitespace_flags Demo.this w5 (Js.lit "    x = 1")).
    + split; reflexivity.
    + reflexivity.
    + vm_compute. do 4 apply List.Exists_cons_tl.
      apply List.Exists_cons_hd. reflexivity.
Defined.

(** The caret at column 0 of the same line. *)
Lemma caret_at_line_start_flags_run :
  let w := Demo.world {[HAS_IN_LEADING_WHITESPACE_CLASS; HAS_SELECTION_CLASS]}
             false true (Demo.caret 1 0) in
  let w' := after (CodeEditorWrapper._onSelectionsChanged Demo.this) w in
  completion (CodeEditorWrapper._onSelectionsChanged Demo.this) w = Normal tt
  ∧ prefixOf Demo.this (Js.lit "    x = 1") w = []
  ∧ Js.match_ (prefixOf Demo.this (Js.lit "    x = 1") w) leadingWhitespaceRe
    = None
  ∧ (HAS_IN_LEADING_WHITESPACE_CLASS ∉ classList w')
  ∧ HAS_SELECTION_CLASS ∉ classList w'.
Proof.
  intros w.
  apply (caret_at_line_start_flags Demo.this w (Js.lit "    x = 1")).
  - split; reflexivity.
  - reflexivity.
  - reflexivity.
Defined.

(** Unknown size on a hidden host, on a visible host, and 80 by 24 on a
    hidden host. *)
Lemma onResize_guards_run :
  let hidden := Demo.world ∅ false false (Demo.caret 0 0) in
  let visible := Demo.world ∅ false true (Demo.caret 0 0) in
  CodeEditorWrapper.onResize Demo.this (-1) (-1) hidden = (Normal tt, hidden)
  ∧ (calls (CodeEditorWrapper.onResize Demo.this (-1) (-1)) visible
       = [CallResizeToFit]
     ∧ CodeEditorWrapper.onResize Demo.this (-1) (-1) visible
       = outcomeOf (CodeEditor.IEditor.resizeToFit (Demo.editor 7))
           CallResizeToFit visible)
  ∧ (calls (CodeEditorWrapper.onResize Demo.this 80 24) hidden
       = [CallSetSize 80 24]
     ∧ CodeEditorWrapper.onResize Demo.this 80 24 hidden
       = outcomeOf (CodeEditor.IEditor.setSize (Demo.editor 7) 80 24)
           (CallSetSize 80 24) hidden).
Proof.
  intros hidden visible.
  destruct (onResize_guards Demo.this (-1) (-1) hidden) as (_ & _ & Hneg).
  destruct (onResize_guards Demo.this (-1) (-1) visible) as (_ & _ & Hvis).
  destruct (onResize_guards Demo.this 80 24 hidden) as (_ & Hok & _).
  split; [|split].
  - apply Hneg; [lia | reflexivity].
  - apply Hvis; [lia | reflexivity].
  - apply Hok. lia.
Defined.

(** A hidden host is attached: the base attach behaviour has run. *)
Lemma attach_runs_base_when_hidden :
  ¬ attachGuardedByVisibility Demo.this
      (Demo.world ∅ false false (Demo.caret 0 0)).
Proof.
  unfold attachGuardedByVisibility. intros Hguard.
  assert (Hin : SuperOnAfterAttach
                  ∈ calls (CodeEditorWrapper.onAfterAttach Demo.this)
                      (Demo.world ∅ false false (Demo.caret 0 0))).
  { rewrite onAfterAttach_calls. apply list_elem_of_here. }
  specialize (Hguard Hin). discriminate.
Qed.

(** A widget is built, told that the selection changed, shown with the
    caret moved, and told again. *)
Lemma style_flags_exclusive_run :
  let opts := Demo.options (Demo.factory (Demo.range 0 0 1 2)) in
  let w0 :=
    {| classList := ∅; isDisposed := false; isVisible := false;
       editorState := (Demo.document, Demo.range 0 0 1 2);
       log := [CallFactory (CodeEditorWrapper.factoryArgument 1 opts);
               CallConnect 7%nat 1%nat] |} in
  let changed :=
    after (CodeEditorWrapper.deliver Demo.this
             CodeEditorWrapper.SelectionsChanged) in
  CodeEditorWrapper.constructor 1 opts = CodeEditorWrapper.New Demo.this w0
  ∧ CodeEditorWrapper.flagsExclusive
      (changed
         (CodeEditorWrapper.surroundings true
            (Demo.document, Demo.caret 1 4) (changed w0))).
Proof.
  intros opts w0 changed. split; [reflexivity|].
  destruct (style_flags_exclusive Demo.this) as (_ & _ & Hreach).
  apply (Hreach 1%nat opts).
  eapply CodeEditorWrapper.reach_step; [|apply CodeEditorWrapper.step_deliver].
  eapply CodeEditorWrapper.reach_step;
    [|apply CodeEditorWrapper.step_surroundings].
  eapply CodeEditorWrapper.reach_step; [|apply CodeEditorWrapper.step_deliver].
  apply CodeEditorWrapper.reach_new. reflexivity.
Defined.


(** One factory returns an editor, the other throws. *)
Lemma constructor_contract_run :
  let good := Demo.options (Demo.factory (Demo.caret 0 0)) in
  let bad := Demo.options Demo.failing in
  (∃ w, CodeEditorWrapper.constructor 1 good
        = CodeEditorWrapper.New Demo.this w
        ∧ editorState w = (Demo.document, Demo.caret 0 0)
        ∧ log w = [CallFactory (CodeEditorWrapper.factoryArgument 1 good);
                   CallConnect 7%nat 1%nat])
  ∧ CodeEditorWrapper.constructor 1 bad
    = CodeEditorWrapper.Failed (Thrown 1)
        [CallFactory (CodeEditorWrapper.factoryArgument 1 bad)]
  ∧ List.filter isConnect
      (CodeEditorWrapper.madeBy (CodeEditorWrapper.constructor 1 bad)) = [].
Proof.
  intros good bad.
  destruct (constructor_contract 1%nat good) as (_ & _ & Hgood & _).
  destruct (constructor_contract 1%nat bad) as (_ & _ & _ & Hbad).
  split.
  - apply (Hgood (Demo.editor 7) (Demo.document, Demo.caret 0 0)).
    reflexivity.
  - apply (Hbad (Thrown 1)). reflexivity.
Defined.

(** The caret sits on line 5 of a document of two lines. *)
Lemma selection_handler_total_iff_run :
  let w := Demo.world {[HAS_SELECTION_CLASS]} false true (Demo.caret 5 0) in
  let m := CodeEditorWrapper._onSelectionsChanged Demo.this in
  completion m w = Abrupt TypeError ∧ CallGetLine 5 ∈ calls m w.
Proof.
  intros w m.
  destruct (selection_handler_total_iff Demo.this w) as (_ & Hthrow & _).
  apply Hthrow.
  - split; reflexivity.
  - reflexivity.
Defined.

(** A visible widget that has been disposed. *)
Lemma disposed_host_still_forwards_run :
  let w := after (CodeEditorWrapper.dispose Demo.this)
             (Demo.world ∅ false true (Demo.caret 0 0)) in
  isDisposed w = true
  ∧ CodeEditorWrapper.onActivateRequest Demo.this w
    = outcomeOf (CodeEditor.IEditor.focus (Demo.editor 7)) CallFocus w
  ∧ CodeEditorWrapper.onUpdateRequest Demo.this w
    = outcomeOf (CodeEditor.IEditor.refresh (Demo.editor 7)) CallRefresh w
  ∧ CodeEditorWrapper.onResize Demo.this 80 24 w
    = outcomeOf (CodeEditor.IEditor.setSize (Demo.editor 7) 80 24)
        (CallSetSize 80 24) w
  ∧ CodeEditorWrapper.onResize Demo.this (-1) (-1) w
    = outcomeOf (CodeEditor.IEditor.resizeToFit (Demo.editor 7))
        CallResizeToFit w.
Proof.
  intros w.
  destruct (disposed_host_still_forwards Demo.this w)
    as ((Hfocus & _) & (Hrefresh & _) & Hresize & _).
  destruct (Hresize 80 24)%Z as (Hok & _).
  destruct (Hresize (-1) (-1))%Z as (_ & Hfit & _).
  split; [reflexivity|]. split; [exact Hfocus|]. split; [exact Hrefresh|].
  split; [apply Hok; lia | apply Hfit; [lia | reflexivity]].
Defined.

End Runs.

(* ===================================================================== *)
(** ** More on the selection classifier                                   *)
(* ===================================================================== *)

Section ClassListAlgebra.
Implicit Types (X : gset string) (a b c : string).

Lemma other_after_add_remove X a b c :
  c ≠ a → c ≠ b → (c ∈ ({[a]} ∪ X) ∖ {[b]} ↔ c ∈ X).
Proof.
  intros Ha Hb. rewrite elem_of_difference, elem_of_union, !elem_of_singleton.
  tauto.
Qed.

Lemma other_after_remove_add X a b c :
  c ≠ a → c ≠ b → (c ∈ {[b]} ∪ (X ∖ {[a]}) ↔ c ∈ X).
Proof.
  intros Ha Hb. rewrite elem_of_union, elem_of_difference, !elem_of_singleton.
  tauto.
Qed.

Lemma other_after_remove_remove X a b c :
  c ≠ a → c ≠ b → (c ∈ (X ∖ {[a]}) ∖ {[b]} ↔ c ∈ X).
Proof.
  intros Ha Hb. rewrite !elem_of_difference, !elem_of_singleton. tauto.
Qed.

Lemma other_after_remove X a c : c ≠ a → (c ∈ X ∖ {[a]} ↔ c ∈ X).
Proof. intros Ha. rewrite elem_of_difference, elem_of_singleton. tauto. Qed.

Lemma add_remove_twice X a b :
  ({[a]} ∪ (({[a]} ∪ X) ∖ {[b]})) ∖ {[b]} = ({[a]} ∪ X) ∖ {[b]}.
Proof.
  apply set_eq. intros x.
  rewrite !elem_of_difference, !elem_of_union, !elem_of_difference,
    !elem_of_union, !elem_of_singleton. tauto.
Qed.

Lemma remove_add_twice X a b :
  {[b]} ∪ (({[b]} ∪ (X ∖ {[a]})) ∖ {[a]}) = {[b]} ∪ (X ∖ {[a]}).
Proof.
  apply set_eq. intros x.
  rewrite !elem_of_union, !elem_of_difference, !elem_of_union,
    !elem_of_difference, !elem_of_singleton. tauto.
Qed.

Lemma remove_remove_twice X a b :
  (((X ∖ {[a]}) ∖ {[b]}) ∖ {[a]}) ∖ {[b]} = (X ∖ {[a]}) ∖ {[b]}.
Proof.
  apply set_eq. intros x.
  rewrite !elem_of_difference, !elem_of_singleton. tauto.
Qed.

Lemma remove_twice X a : (X ∖ {[a]}) ∖ {[a]} = X ∖ {[a]}.
Proof.
  apply set_eq. intros x.
  rewrite !elem_of_difference, !elem_of_singleton. tauto.
Qed.

End ClassListAlgebra.

Section PrefixFacts.

Lemma nonEmptyWhitespace_shorter (text : Js.jsstring) (j k : Z) :
  (0 < j)%Z → (j ≤ k)%Z →
  nonEmptyWhitespace (Js.slice text 0 k) →
  nonEmptyWhitespace (Js.slice text 0 j).
Proof.
  intros Hj Hjk. rewrite !slice_prefix by lia.
  unfold nonEmptyWhitespace. intros [Hne Hall]. split.
  - destruct text as [|c r]; [rewrite take_nil in Hne; contradiction|].
    destruct (Z.to_nat j) as [|j'] eqn:E; [lia|]. discriminate.
  - replace (Z.to_nat j) with (Z.to_nat j `min` Z.to_nat k)%nat by lia.
    rewrite <- take_take. apply Forall_take, Hall.
Qed.

Lemma slice_whole (text : Js.jsstring) (k : Z) :
  (Z.of_nat (length text) ≤ k)%Z → Js.slice text 0 k = text.
Proof.
  intros Hk. rewrite slice_prefix by lia. apply take_ge. lia.
Qed.

End PrefixFacts.

Section MoreSelection.
Context `{Types} (this : CodeEditorWrapper.t).

Lemma selection_frame w :
  let w' := after (CodeEditorWrapper._onSelectionsChanged this) w in
  editorState w' = editorState w
  ∧ isDisposed w' = isDisposed w
  ∧ isVisible w' = isVisible w.
Proof.
  intros w'. subst w'. unfold after.
  destruct (selection_handler_cases this w) as [Hr|Hc].
  - rewrite (selection_range this w Hr). repeat split.
  - destruct (endLineOf this w) as [text|] eqn:Hl.
    + rewrite (selection_caret this w text Hc Hl). repeat split.
    + rewrite (selection_caret_undefined this w Hc Hl). repeat split.
Qed.

Lemma selection_same_question w :
  let w' := after (CodeEditorWrapper._onSelectionsChanged this) w in
  selectionOf this w' = selectionOf this w
  ∧ endLineOf this w' = endLineOf this w
  ∧ ∀ text, prefixOf this text w' = prefixOf this text w.
Proof.
  intros w'. destruct (selection_frame w) as (Hs & _ & _). fold w' in Hs.
  unfold endLineOf, prefixOf, selectionOf. rewrite Hs. repeat split.
Qed.

Lemma caret_flag_iff w text :
  isCaret (selectionOf this w) → endLineOf this w = Some text →
  (HAS_IN_LEADING_WHITESPACE_CLASS
     ∈ classList (after (CodeEditorWrapper._onSelectionsChanged this) w)
   ↔ nonEmptyWhitespace (prefixOf this text w)).
Proof.
  intros Hc Hl. unfold after. rewrite (selection_caret this w text Hc Hl).
  cbn [snd classList]. rewrite <- match_nonEmptyWhitespace.
  destruct (Js.truthy _).
  - split; [reflexivity|]. intros _. apply added_after_removed.
  - split; [|discriminate]. intros Hin. exfalso.
    exact (removed_absent _ _ Hin).
Qed.

(** X1.  After the selection-changed handler, however it completes and
    whatever was on the node before, [HAS_SELECTION] is on the node exactly
    when the selection is a range. *)
Theorem has_selection_iff_range w :
  HAS_SELECTION_CLASS
    ∈ classList (after (CodeEditorWrapper._onSelectionsChanged this) w)
  ↔ isRange (selectionOf this w).
Proof.
  unfold after. destruct (selection_handler_cases this w) as [Hr|Hc].
  - rewrite (selection_range this w Hr). cbn [snd classList].
    split; [intros _; exact Hr|]. intros _. apply added_present, flags_differ.
  - split; [|intros Hr; exfalso; exact (caret_not_range _ Hc Hr)].
    intros Hin. exfalso. revert Hin.
    destruct (endLineOf this w) as [text|] eqn:Hl.
    + rewrite (selection_caret this w text Hc Hl). cbn [snd classList].
      destruct (Js.truthy _).
      * apply absent_after_adding_other, not_eq_sym, flags_differ.
      * apply absent_after_removing_other.
    + rewrite (selection_caret_undefined this w Hc Hl). cbn [snd classList].
      apply removed_absent.
Qed.

(** X2.  When the handler returns, whatever was on the node before,
    [HAS_IN_LEADING_WHITESPACE] is on the node exactly when the selection is
    a caret and the text before it on its line is non-empty and all
    whitespace; in particular a caret on an empty line never gets it. *)
Theorem leading_whitespace_iff w :
  completion (CodeEditorWrapper._onSelectionsChanged this) w = Normal tt →
  (HAS_IN_LEADING_WHITESPACE_CLASS
     ∈ classList (after (CodeEditorWrapper._onSelectionsChanged this) w)
   ↔ isCaret (selectionOf this w)
     ∧ ∃ text, endLineOf this w = Some text
               ∧ nonEmptyWhitespace (prefixOf this text w)).
Proof.
  intros Hret. destruct (selection_handler_cases this w) as [Hr|Hc].
  - split.
    + intros Hin. exfalso. revert Hin. unfold after.
      rewrite (selection_range this w Hr). cbn [snd classList].
      apply removed_absent.
    + intros [Hc _]. exfalso. exact (caret_not_range _ Hc Hr).
  - destruct (endLineOf this w) as [text|] eqn:Hl.
    + rewrite (caret_flag_iff w text Hc Hl). split.
      * intros Hws. split; [exact Hc|]. exists text. split; [reflexivity | exact Hws].
      * intros (_ & text' & Heq & Hws). injection Heq as <-. exact Hws.
    + exfalso. unfold completion in Hret.
      rewrite (selection_caret_undefined this w Hc Hl) in Hret. discriminate.
Qed.

(** X3.  When the selection is a caret and [getLine] has no string for its
    line, the handler throws after taking [HAS_SELECTION] off the node and
    before deciding on [HAS_IN_LEADING_WHITESPACE], which therefore stays as
    it was: on the node if it was there, off it if it was not. *)
Theorem undefined_line_keeps_stale_flag w :
  isCaret (selectionOf this w) → endLineOf this w = None →
  let w' := after (CodeEditorWrapper._onSelectionsChanged this) w in
  completion (CodeEditorWrapper._onSelectionsChanged this) w = Abrupt TypeError
  ∧ classList w' = classList w ∖ {[HAS_SELECTION_CLASS]}
  ∧ (HAS_IN_LEADING_WHITESPACE_CLASS ∈ classList w'
     ↔ HAS_IN_LEADING_WHITESPACE_CLASS ∈ classList w).
Proof.
  intros Hc Hl w'. subst w'. unfold after, completion.
  rewrite (selection_caret_undefined this w Hc Hl). cbn [fst snd classList].
  split; [reflexivity|]. split; [reflexivity|].
  apply other_after_remove, not_eq_sym, flags_differ.
Qed.

(** X4.  The handler touches no class but its two markers: any other class
    is on the node afterwards exactly when it was before. *)
Theorem other_classes_untouched w (c : string) :
  c ≠ HAS_SELECTION_CLASS → c ≠ HAS_IN_LEADING_WHITESPACE_CLASS →
  (c ∈ classList (after (CodeEditorWrapper._onSelectionsChanged this) w)
   ↔ c ∈ classList w).
Proof.
  intros Hs Hw. unfold after.
  destruct (selection_handler_cases this w) as [Hr|Hc].
  - rewrite (selection_range this w Hr). cbn [snd classList].
    apply other_after_add_remove; assumption.
  - destruct (endLineOf this w) as [text|] eqn:Hl.
    + rewrite (selection_caret this w text Hc Hl). cbn [snd classList].
      destruct (Js.truthy _).
      * apply other_after_remove_add; assumption.
      * apply other_after_remove_remove; assumption.
    + rewrite (selection_caret_undefined this w Hc Hl). cbn [snd classList].
      apply other_after_remove; assumption.
Qed.

(** X5.  Handling the same selection a second time changes nothing on the
    node and completes the same way: the class list after two runs is the
    class list after one. *)
Theorem selection_handler_idempotent w :
  let m := CodeEditorWrapper._onSelectionsChanged this in
  completion m (after m w) = completion m w
  ∧ classList (after m (after m w)) = classList (after m w).
Proof.
  intros m. subst m.
  destruct (selection_same_question w) as (Hsel & Hline & Hpre).
  set (w1 := after (CodeEditorWrapper._onSelectionsChanged this) w) in *.
  destruct (selection_handler_cases this w) as [Hr|Hc].
  - assert (Hr1 : isRange (selectionOf this w1)) by (rewrite Hsel; exact Hr).
    unfold completion, after.
    rewrite (selection_range this w1 Hr1). cbn [fst snd classList].
    subst w1. unfold after.
    rewrite (selection_range this w Hr). cbn [fst snd classList].
    split; [reflexivity | apply add_remove_twice].
  - assert (Hc1 : isCaret (selectionOf this w1)) by (rewrite Hsel; exact Hc).
    destruct (endLineOf this w) as [text|] eqn:Hl.
    + unfold completion, after.
      rewrite (selection_caret this w1 text Hc1 Hline), Hpre.
      cbn [fst snd classList]. subst w1. unfold after.
      rewrite (selection_caret this w text Hc Hl). cbn [fst snd classList].
      split; [reflexivity|].
      destruct (Js.truthy _).
      * apply remove_add_twice.
      * apply remove_remove_twice.
    + unfold completion, after.
      rewrite (selection_caret_undefined this w1 Hc1 Hline).
      cbn [fst snd classList]. subst w1. unfold after.
      rewrite (selection_caret_undefined this w Hc Hl). cbn [fst snd classList].
      split; [reflexivity | apply remove_twice].
Qed.

(** X6.  The handler only asks the editor: it leaves the editor's state, the
    disposed flag and the visibility as they were, and the calls it makes
    are [getSelection] alone for a range, and [getSelection] followed by
    [getLine] on the end line for a caret. *)
Theorem selection_handler_reads_only w :
  let m := CodeEditorWrapper._onSelectionsChanged this in
  editorState (after m w) = editorState w
  ∧ isDisposed (after m w) = isDisposed w
  ∧ isVisible (after m w) = isVisible w
  ∧ (isRange (selectionOf this w) → calls m w = [CallGetSelection])
  ∧ (isCaret (selectionOf this w) →
     calls m w
     = [CallGetSelection;
        CallGetLine (CodeEditor.line (CodeEditor.end_ (selectionOf this w)))]).
Proof.
  intros m. subst m. destruct (selection_frame w) as (Hs & Hd & Hv).
  split; [exact Hs|]. split; [exact Hd|]. split; [exact Hv|]. split.
  - intros Hr. unfold calls, after. rewrite (selection_range this w Hr).
    cbn [snd log]. apply drop_app_length.
  - intros Hc. unfold calls, after.
    destruct (endLineOf this w) as [text|] eqn:Hl.
    + rewrite (selection_caret this w text Hc Hl). cbn [snd log].
      rewrite <- app_assoc. apply drop_app_length.
    + rewrite (selection_caret_undefined this w Hc Hl). cbn [snd log].
      rewrite <- app_assoc. apply drop_app_length.
Qed.

(** X7.  Within one line the marker is kept while the caret moves left, down
    to column 1: if a caret at column [k] gets [HAS_IN_LEADING_WHITESPACE],
    so does a caret at any column from 1 to [k] of the same text. *)
Theorem leading_whitespace_downward w w' text :
  isCaret (selectionOf this w) → endLineOf this w = Some text →
  isCaret (selectionOf this w') → endLineOf this w' = Some text →
  (0 < CodeEditor.column (CodeEditor.end_ (selectionOf this w')))%Z →
  (CodeEditor.column (CodeEditor.end_ (selectionOf this w'))
   ≤ CodeEditor.column (CodeEditor.end_ (selectionOf this w)))%Z →
  HAS_IN_LEADING_WHITESPACE_CLASS
    ∈ classList (after (CodeEditorWrapper._onSelectionsChanged this) w) →
  HAS_IN_LEADING_WHITESPACE_CLASS
    ∈ classList (after (CodeEditorWrapper._onSelectionsChanged this) w').
Proof.
  intros Hc Hl Hc' Hl' Hpos Hle.
  rewrite (caret_flag_iff w text Hc Hl), (caret_flag_iff w' text Hc' Hl').
  unfold prefixOf. apply nonEmptyWhitespace_shorter; assumption.
Qed.

(** X8.  A caret column at or beyond the end of the line is clamped: the
    prefix is the whole line, so the caret gets
    [HAS_IN_LEADING_WHITESPACE] exactly when the line is non-empty and all
    whitespace. *)
Theorem caret_past_line_end w text :
  isCaret (selectionOf this w) → endLineOf this w = Some text →
  (Z.of_nat (length text)
   ≤ CodeEditor.column (CodeEditor.end_ (selectionOf this w)))%Z →
  prefixOf this text w = text
  ∧ (HAS_IN_LEADING_WHITESPACE_CLASS
       ∈ classList (after (CodeEditorWrapper._onSelectionsChanged this) w)
     ↔ nonEmptyWhitespace text).
Proof.
  intros Hc Hl Hlen.
  assert (Hp : prefixOf this text w = text) by (apply slice_whole, Hlen).
  split; [exact Hp|]. rewrite (caret_flag_iff w text Hc Hl), Hp. reflexivity.
Qed.

End MoreSelection.

(* ===================================================================== *)
(** ** Failures                                                           *)
(* ===================================================================== *)

Section Failures.
Context `{Types} (this : CodeEditorWrapper.t).

Lemma command_completion (m : EdState → Completion unit * EdState)
    (c : Call) w :
  completion (record c ;; command m) w = fst (m (editorState w)).
Proof. run. destruct (m (editorState w)); reflexivity. Qed.

(** X9.  With an editor whose five commands do not throw, none of the five
    notifications of the container and no call of [dispose] fails: each of
    these handlers returns normally.  (A change of selection is another
    matter: it asks the getters.) *)
Theorem lifecycle_fails_only_with_editor n w :
  neverThrows (CodeEditorWrapper.editor this) →
  n ≠ CodeEditorWrapper.SelectionsChanged →
  completion (CodeEditorWrapper.deliver this n) w = Normal tt.
Proof.
  intros Hquiet Hn.
  destruct (Hquiet (editorState w)) as (Hfocus & Hrefresh & Hsize & Hfit & Hdisp).
  destruct n; try contradiction; cbn [CodeEditorWrapper.deliver].
  - unfold CodeEditorWrapper.onActivateRequest.
    rewrite command_completion. exact Hfocus.
  - run. destruct (isVisible w); reflexivity.
  - run. reflexivity.
  - unfold CodeEditorWrapper.onResize.
    destruct ((0 <=? width)%Z && (0 <=? height)%Z)%bool.
    + rewrite command_completion. apply Hsize.
    + run. destruct (isVisible w); run; [|reflexivity].
      destruct (CodeEditor.IEditor.resizeToFit _ _) as [r s']. cbn in *.
      rewrite Hfit. reflexivity.
  - unfold CodeEditorWrapper.onUpdateRequest.
    rewrite command_completion. exact Hrefresh.
  - run. destruct (isDisposed w); run; [reflexivity|].
    destruct (CodeEditor.IEditor.dispose _ _) as [r s']. cbn in *.
    rewrite Hdisp. reflexivity.
Qed.

(** X10.  When [editor.dispose()] throws on the first disposal, the thrown
    value comes out of [dispose], the host is marked disposed all the same
    and keeps the state the editor was left in, and a second call returns
    without trying the editor again. *)
Theorem dispose_failure_not_retried w e :
  isDisposed w = false →
  fst (CodeEditor.IEditor.dispose (CodeEditorWrapper.editor this)
         (editorState w)) = Abrupt e →
  let w1 := after (CodeEditorWrapper.dispose this) w in
  completion (CodeEditorWrapper.dispose this) w = Abrupt e
  ∧ isDisposed w1 = true
  ∧ editorState w1
    = snd (CodeEditor.IEditor.dispose (CodeEditorWrapper.editor this)
             (editorState w))
  ∧ CodeEditorWrapper.dispose this w1 = (Normal tt, w1)
  ∧ calls (CodeEditorWrapper.dispose this) w1 = [].
Proof.
  intros Hd He w1. subst w1.
  assert (Hm := dispose_marks this w).
  split; [|split; [exact Hm|split; [|split]]].
  - revert He. run. rewrite Hd. run.
    destruct (CodeEditor.IEditor.dispose _ _) as [r s']. cbn. intros ->.
    reflexivity.
  - run. rewrite Hd. run.
    destruct (CodeEditor.IEditor.dispose _ _) as [r s']. destruct r; reflexivity.
  - exact (dispose_again this _ Hm).
  - unfold calls. set (w1 := after (CodeEditorWrapper.dispose this) w) in *.
    unfold after. rewrite (dispose_again this w1 Hm). cbn [snd].
    apply drop_all.
Qed.

End Failures.

(* ===================================================================== *)
(** ** The whole life of a widget                                         *)
(* ===================================================================== *)

(** Exhibit what a handler has added to the log. *)
Ltac appended :=
  cbn [fst snd log];
  first
    [ eexists; split; [rewrite <- ?app_assoc; reflexivity | repeat split]
    | exists []; split; [symmetry; apply app_nil_r | repeat split] ].

Section Steps.
Context `{Types} (this : CodeEditorWrapper.t).

Lemma deliver_appends n w :
  ∃ added,
    log (after (CodeEditorWrapper.deliver this n) w) = log w ++ added
    ∧ List.filter isFactory added = []
    ∧ List.filter isConnect added = []
    ∧ disposals added
      = match n with
        | CodeEditorWrapper.Dispose => if isDisposed w then 0%nat else 1%nat
        | _ => 0%nat
        end.
Proof.
  destruct n; run.
  - editor_returns. destruct r; appended.
  - destruct (isVisible w); appended.
  - appended.
  - destruct ((0 <=? width)%Z && (0 <=? height)%Z)%bool.
    + editor_returns. destruct r; appended.
    + destruct (isVisible w); [|appended].
      editor_returns. destruct r; appended.
  - editor_returns. destruct r; appended.
  - destruct (negb _ || negb _)%bool; run; [appended|].
    destruct (CodeEditor.IEditor.getLine _ _ _) as [text|]; run; [|appended].
    destruct (Js.truthy _); appended.
  - destruct (isDisposed w); run; [appended|].
    editor_returns. destruct r; appended.
Qed.

Lemma deliver_disposed_flag n w :
  isDisposed (after (CodeEditorWrapper.deliver this n) w)
  = match n with
    | CodeEditorWrapper.Dispose => true
    | _ => isDisposed w
    end.
Proof.
  destruct n; try apply dispose_marks; run.
  - editor_returns. destruct r; reflexivity.
  - destruct (isVisible w); reflexivity.
  - reflexivity.
  - destruct ((0 <=? width)%Z && (0 <=? height)%Z)%bool.
    + editor_returns. destruct r; reflexivity.
    + destruct (isVisible w); [|reflexivity].
      editor_returns. destruct r; reflexivity.
  - editor_returns. destruct r; reflexivity.
  - destruct (negb _ || negb _)%bool; run; [reflexivity|].
    destruct (CodeEditor.IEditor.getLine _ _ _) as [text|]; run; [|reflexivity].
    destruct (Js.truthy _); reflexivity.
Qed.

Lemma disposals_app (l k : list Call) :
  disposals (l ++ k) = (disposals l + disposals k)%nat.
Proof. unfold disposals. rewrite List.filter_app, List.length_app. reflexivity. Qed.

Lemma step_disposed w w' :
  CodeEditorWrapper.step this w w' → isDisposed w = true →
  isDisposed w' = true ∧ disposals (log w') = disposals (log w).
Proof.
  intros Hstep Hd. destruct Hstep as [n w|w visible s].
  - rewrite deliver_disposed_flag.
    destruct (deliver_appends n w) as (added & -> & _ & _ & Hcount).
    rewrite disposals_app, Hcount, Hd.
    split; [destruct n; reflexivity | destruct n; lia].
  - split; [exact Hd | reflexivity].
Qed.

(** X13.  Disposal is final: from a disposed host, whatever notifications
    follow and however the surroundings change, the host stays disposed and
    [editor.dispose()] is not called again. *)
Theorem disposed_is_final w w' :
  rtc (CodeEditorWrapper.step this) w w' →
  isDisposed w = true →
  isDisposed w' = true ∧ disposals (log w') = disposals (log w).
Proof.
  induction 1 as [w|w w1 w' Hstep _ IH]; intros Hd.
  - split; [exact Hd | reflexivity].
  - destruct (step_disposed w w1 Hstep Hd) as [Hd1 Hc1].
    destruct (IH Hd1) as [Hd' Hc']. split; [exact Hd' | congruence].
Qed.

End Steps.

Section WholeLife.
Context `{Types}.

Lemma constructed_shape nd options this w :
  CodeEditorWrapper.constructor nd options = CodeEditorWrapper.New this w →
  CodeEditorWrapper.node this = nd
  ∧ CodeEditorWrapper.IOptions.factory options
      (CodeEditorWrapper.factoryArgument nd options)
    = Normal (CodeEditorWrapper.editor this, editorState w)
  ∧ log w = [CallFactory (CodeEditorWrapper.factoryArgument nd options);
             CallConnect (CodeEditorWrapper.model this) nd]
  ∧ isDisposed w = false.
Proof.
  unfold CodeEditorWrapper.constructor.
  destruct (CodeEditorWrapper.IOptions.factory options _) as [[ed s]|e] eqn:E;
    [|discriminate].
  intros Hnew. injection Hnew as <- <-. repeat split.
Qed.

Lemma reachable_invariant nd options this w :
  CodeEditorWrapper.reachable nd options this w →
  List.filter isFactory (log w)
    = [CallFactory (CodeEditorWrapper.factoryArgument nd options)]
  ∧ List.filter isConnect (log w)
    = [CallConnect (CodeEditorWrapper.model this) nd]
  ∧ disposals (log w) = (if isDisposed w then 1 else 0)%nat.
Proof.
  induction 1 as [this w Hnew|this w w' Hreach IH Hstep].
  - destruct (constructed_shape _ _ _ _ Hnew) as (_ & _ & -> & ->).
    repeat split.
  - destruct IH as (Hf & Hc & Hd).
    destruct Hstep as [n w|w visible s]; [|repeat split; assumption].
    rewrite deliver_disposed_flag.
    destruct (deliver_appends this n w) as (added & -> & Hf' & Hc' & Hd').
    rewrite !List.filter_app, Hf, Hc, Hf', Hc', disposals_app, Hd, Hd'.
    split; [reflexivity|]. split; [reflexivity|].
    destruct n, (isDisposed w); reflexivity.
Qed.

(** X11.  Over the whole life of a constructed widget, under any sequence of
    notifications, [editor.dispose()] has been called once if the host is
    disposed and not at all if it is not: never twice. *)
Theorem editor_disposed_at_most_once nd options this w :
  CodeEditorWrapper.reachable nd options this w →
  disposals (log w) = (if isDisposed w then 1 else 0)%nat.
Proof. intros Hreach. apply (reachable_invariant nd options this w Hreach). Qed.

(** X12.  Over the whole life of a constructed widget the factory has been
    called once, with the argument the constructor built, and one connection
    has been made, to the model that [get model()] returns: no handler
    builds a second editor or connects again. *)
Theorem one_factory_call_one_connection nd options this w :
  CodeEditorWrapper.reachable nd options this w →
  List.filter isFactory (log w)
    = [CallFactory (CodeEditorWrapper.factoryArgument nd options)]
  ∧ List.filter isConnect (log w)
    = [CallConnect (CodeEditorWrapper.model this) nd].
Proof.
  intros Hreach.
  destruct (reachable_invariant nd options this w Hreach) as (Hf & Hc & _).
  split; assumption.
Qed.

(** X14.  A widget that has been constructed sits on the node it was given,
    owns the very editor the factory returned, starts from the state that
    editor came with, and [get model()] is that editor's model, the one the
    handler was connected to, whatever model the options carried. *)
Theorem constructed_owns_factory_editor nd options this w :
  CodeEditorWrapper.constructor nd options = CodeEditorWrapper.New this w →
  CodeEditorWrapper.node this = nd
  ∧ CodeEditorWrapper.IOptions.factory options
      (CodeEditorWrapper.factoryArgument nd options)
    = Normal (CodeEditorWrapper.editor this, editorState w)
  ∧ CodeEditorWrapper.model this
    = CodeEditor.IEditor.model (CodeEditorWrapper.editor this)
  ∧ List.filter isConnect (log w)
    = [CallConnect (CodeEditorWrapper.model this) nd].
Proof.
  intros Hnew.
  destruct (constructed_shape nd options this w Hnew) as (Hn & Hf & Hl & _).
  split; [exact Hn|]. split; [exact Hf|]. split; [reflexivity|].
  rewrite Hl. reflexivity.
Qed.

End WholeLife.

Section Forwarding.
Context `{Types} (this : CodeEditorWrapper.t).

Lemma forwarded (m : EdState → Completion unit * EdState) (c : Call) w :
  (record c ;; command m) w
  = (fst (m (editorState w)),
     {| classList := classList w; isDisposed := isDisposed w;
        isVisible := isVisible w; editorState := snd (m (editorState w));
        log := log w ++ [c] |}).
Proof. run. destruct (m (editorState w)) as [r s]. destruct r; reflexivity. Qed.

(** X15.  The forwarding handlers catch nothing and repair nothing: an
    activate-request, an update-request and a resize complete exactly as the
    editor call they make completes, a thrown value included, and leave the
    editor in the state that call left it in, with the class list and the
    two flags of the host as they were. *)
Theorem editor_failures_propagate w :
  let ed := CodeEditorWrapper.editor this in
  let outcome (m : EdState → Completion unit * EdState) (c : Call) :=
    (fst (m (editorState w)),
     {| classList := classList w; isDisposed := isDisposed w;
        isVisible := isVisible w; editorState := snd (m (editorState w));
        log := log w ++ [c] |}) in
  CodeEditorWrapper.onActivateRequest this w
    = outcome (CodeEditor.IEditor.focus ed) CallFocus
  ∧ CodeEditorWrapper.onUpdateRequest this w
    = outcome (CodeEditor.IEditor.refresh ed) CallRefresh
  ∧ (∀ width height, (0 ≤ width)%Z → (0 ≤ height)%Z →
       CodeEditorWrapper.onResize this width height w
       = outcome (CodeEditor.IEditor.setSize ed width height)
           (CallSetSize width height))
  ∧ (∀ width height, ¬ ((0 ≤ width)%Z ∧ (0 ≤ height)%Z) →
       isVisible w = true →
       CodeEditorWrapper.onResize this width height w
       = outcome (CodeEditor.IEditor.resizeToFit ed) CallResizeToFit).
Proof.
  intros ed outcome. subst ed outcome. cbv beta.
  split; [apply forwarded|]. split; [apply forwarded|]. split.
  - intros width height Hw Hh. unfold CodeEditorWrapper.onResize.
    destruct (valid_size_iff width height) as [_ Hv].
    rewrite Hv by (split; assumption). apply forwarded.
  - intros width height Hbad Hvis. unfold CodeEditorWrapper.onResize.
    destruct ((0 <=? width)%Z && (0 <=? height)%Z)%bool eqn:E.
    + exfalso. apply Hbad, valid_size_iff, E.
    + rewrite <- (forwarded (CodeEditor.IEditor.resizeToFit
                              (CodeEditorWrapper.editor this)) CallResizeToFit w).
      run. rewrite Hvis. run. rewrite ?Hvis. reflexivity.
Qed.

End Forwarding.

(* ===================================================================== *)
(** ** More runs on the small editor                                      *)
(* ===================================================================== *)

Section MoreRuns.
#[local] Existing Instance Demo.types.

(** The caret at column 4 of [    x = 1], with a stale [HAS_SELECTION]. *)
Lemma leading_whitespace_iff_run :
  let w := Demo.world {[HAS_SELECTION_CLASS]} false true (Demo.caret 1 4) in
  HAS_IN_LEADING_WHITESPACE_CLASS
    ∈ classList (after (CodeEditorWrapper._onSelectionsChanged Demo.this) w)
  ↔ isCaret (selectionOf Demo.this w)
    ∧ ∃ text, endLineOf Demo.this w = Some text
              ∧ nonEmptyWhitespace (prefixOf Demo.this text w).
Proof.
  intros w. apply (leading_whitespace_iff Demo.this w). reflexivity.
Defined.

(** The caret on line 5 of a document of two lines, the marker being on. *)
Lemma undefined_line_keeps_stale_flag_run :
  let w := Demo.world {[HAS_IN_LEADING_WHITESPACE_CLASS; HAS_SELECTION_CLASS]}
             false true (Demo.caret 5 0) in
  let w' := after (CodeEditorWrapper._onSelectionsChanged Demo.this) w in
  completion (CodeEditorWrapper._onSelectionsChanged Demo.this) w
    = Abrupt TypeError
  ∧ classList w' = classList w ∖ {[HAS_SELECTION_CLASS]}
  ∧ (HAS_IN_LEADING_WHITESPACE_CLASS ∈ classList w'
     ↔ HAS_IN_LEADING_WHITESPACE_CLASS ∈ classList w).
Proof.
  intros w. apply (undefined_line_keeps_stale_flag Demo.this w).
  - split; reflexivity.
  - reflexivity.
Defined.

(** The class the base widget puts on every node. *)
Lemma other_classes_untouched_run :
  let w := Demo.world {[ "p-Widget"%string ]} false true (Demo.range 0 0 0 3) in
  "p-Widget"%string
    ∈ classList (after (CodeEditorWrapper._onSelectionsChanged Demo.this) w)
  ↔ "p-Widget"%string ∈ classList w.
Proof.
  intros w. apply (other_classes_untouched Demo.this w "p-Widget"%string);
    discriminate.
Defined.

(** From column 4 to column 2 of [    x = 1]. *)
Lemma leading_whitespace_downward_run :
  let w := Demo.world ∅ false true (Demo.caret 1 4) in
  let w' := Demo.world ∅ false true (Demo.caret 1 2) in
  HAS_IN_LEADING_WHITESPACE_CLASS
    ∈ classList (after (CodeEditorWrapper._onSelectionsChanged Demo.this) w').
Proof.
  intros w w'.
  apply (leading_whitespace_downward Demo.this w w' (Js.lit "    x = 1")).
  - split; reflexivity.
  - reflexivity.
  - split; reflexivity.
  - reflexivity.
  - cbn. lia.
  - cbn. lia.
  - apply (bool_decide_unpack _). vm_compute. exact I.
Defined.

(** Column 20 of the line [    x = 1], which has nine characters. *)
Lemma caret_past_line_end_run :
  let w := Demo.world ∅ false true (Demo.caret 1 20) in
  prefixOf Demo.this (Js.lit "    x = 1") w = Js.lit "    x = 1"
  ∧ (HAS_IN_LEADING_WHITESPACE_CLASS
       ∈ classList (after (CodeEditorWrapper._onSelectionsChanged Demo.this) w)
     ↔ nonEmptyWhitespace (Js.lit "    x = 1")).
Proof.
  intros w. apply (caret_past_line_end Demo.this w (Js.lit "    x = 1")).
  - split; reflexivity.
  - reflexivity.
  - cbn. lia.
Defined.

(** The small editor never throws; a live widget is disposed. *)
Lemma lifecycle_fails_only_with_editor_run :
  completion (CodeEditorWrapper.deliver Demo.this CodeEditorWrapper.Dispose)
    (Demo.world ∅ false true (Demo.caret 5 0)) = Normal tt.
Proof.
  apply (lifecycle_fails_only_with_editor Demo.this CodeEditorWrapper.Dispose).
  - intros s. repeat split.
  - discriminate.
Defined.

(** The editor whose [dispose] throws. *)
Lemma dispose_failure_not_retried_run :
  let w := Demo.world ∅ false true (Demo.caret 0 0) in
  let w1 := after (CodeEditorWrapper.dispose Demo.brittleThis) w in
  completion (CodeEditorWrapper.dispose Demo.brittleThis) w
    = Abrupt (Thrown 2)
  ∧ isDisposed w1 = true
  ∧ editorState w1 = ([], Demo.caret 0 0)
  ∧ CodeEditorWrapper.dispose Demo.brittleThis w1 = (Normal tt, w1)
  ∧ calls (CodeEditorWrapper.dispose Demo.brittleThis) w1 = [].
Proof.
  intros w.
  apply (dispose_failure_not_retried Demo.brittleThis w (Thrown 2));
    reflexivity.
Defined.

(** A widget is built, disposed twice and then activated. *)
Lemma demo_life :
  let opts := Demo.options (Demo.factory (Demo.caret 0 0)) in
  let w0 :=
    Widget.created (Demo.document, Demo.caret 0 0)
      [CallFactory (CodeEditorWrapper.factoryArgument 1 opts);
       CallConnect 7%nat 1%nat] in
  let go n := after (CodeEditorWrapper.deliver Demo.this n) in
  CodeEditorWrapper.reachable 1 opts Demo.this
    (go CodeEditorWrapper.ActivateRequest
       (go CodeEditorWrapper.Dispose (go CodeEditorWrapper.Dispose w0))).
Proof.
  intros opts w0 go.
  do 3 (eapply CodeEditorWrapper.reach_step;
        [|apply CodeEditorWrapper.step_deliver]).
  apply CodeEditorWrapper.reach_new. reflexivity.
Defined.

Lemma editor_disposed_at_most_once_run :
  let opts := Demo.options (Demo.factory (Demo.caret 0 0)) in
  let w0 :=
    Widget.created (Demo.document, Demo.caret 0 0)
      [CallFactory (CodeEditorWrapper.factoryArgument 1 opts);
       CallConnect 7%nat 1%nat] in
  let go n := after (CodeEditorWrapper.deliver Demo.this n) in
  let w := go CodeEditorWrapper.ActivateRequest
             (go CodeEditorWrapper.Dispose (go CodeEditorWrapper.Dispose w0)) in
  disposals (log w) = (if isDisposed w then 1 else 0)%nat.
Proof.
  intros opts w0 go w.
  apply (editor_disposed_at_most_once 1%nat opts Demo.this w).
  exact demo_life.
Defined.

Lemma one_factory_call_one_connection_run :
  let opts := Demo.options (Demo.factory (Demo.caret 0 0)) in
  let w0 :=
    Widget.created (Demo.document, Demo.caret 0 0)
      [CallFactory (CodeEditorWrapper.factoryArgument 1 opts);
       CallConnect 7%nat 1%nat] in
  let go n := after (CodeEditorWrapper.deliver Demo.this n) in
  let w := go CodeEditorWrapper.ActivateRequest
             (go CodeEditorWrapper.Dispose (go CodeEditorWrapper.Dispose w0)) in
  List.filter isFactory (log w)
    = [CallFactory (CodeEditorWrapper.factoryArgument 1 opts)]
  ∧ List.filter isConnect (log w) = [CallConnect 7%nat 1%nat].
Proof.
  intros opts w0 go w.
  apply (one_factory_call_one_connection 1%nat opts Demo.this w).
  exact demo_life.
Defined.

(** A disposed widget is resized and told to dispose again. *)
Lemma disposed_is_final_run :
  let w := Demo.world ∅ true true (Demo.caret 0 0) in
  let w' := after (CodeEditorWrapper.deliver Demo.this CodeEditorWrapper.Dispose)
              (after (CodeEditorWrapper.deliver Demo.this
                        (CodeEditorWrapper.Resize 80 24)) w) in
  isDisposed w' = true ∧ disposals (log w') = disposals (log w).
Proof.
  intros w w'. apply (disposed_is_final Demo.this w w'); [|reflexivity].
  eapply rtc_l; [apply CodeEditorWrapper.step_deliver|].
  eapply rtc_l; [apply CodeEditorWrapper.step_deliver|].
  apply rtc_refl.
Defined.

(** The options carry model 7; a factory that puts the editor on another
    model makes [get model()] differ from it. *)
Lemma constructed_owns_factory_editor_run :
  let f : CodeEditor.Factory := fun _ =>
    Normal (Demo.editor 9, (Demo.document, Demo.caret 0 0)) in
  let opts := Demo.options f in
  let this := {| CodeEditorWrapper.node := 1%nat;
                 CodeEditorWrapper.editor := Demo.editor 9 |} in
  let w := Widget.created (Demo.document, Demo.caret 0 0)
             [CallFactory (CodeEditorWrapper.factoryArgument 1 opts);
              CallConnect 9%nat 1%nat] in
  CodeEditorWrapper.IOptions.model opts = 7%nat
  ∧ CodeEditorWrapper.model this = 9%nat
  ∧ List.filter isConnect (log w) = [CallConnect 9%nat 1%nat].
Proof.
  intros f opts this w.
  destruct (constructed_owns_factory_editor 1%nat opts this w eq_refl)
    as (_ & _ & Hm & Hc).
  split; [reflexivity|]. split; [exact Hm | exact Hc].
Defined.

(** The editor whose [dispose] throws still takes focus and sizes. *)
Lemma editor_failures_propagate_run :
  let w := Demo.world ∅ false false (Demo.caret 0 0) in
  completion (CodeEditorWrapper.onResize Demo.brittleThis 0 0) w = Normal tt
  ∧ log (after (CodeEditorWrapper.onResize Demo.brittleThis 0 0) w)
    = [CallSetSize 0 0].
Proof.
  intros w.
  destruct (editor_failures_propagate Demo.brittleThis w) as (_ & _ & Hsize & _).
  unfold completion, after. rewrite (Hsize 0 0)%Z by lia.
  split; reflexivity.
Defined.

End MoreRuns.
